(** * ATtiny13A smart buzzer: a shallow embedding of [main.c]

    The firmware is modelled over an explicit hardware state ([mcu]: the
    I/O registers the code touches, the EEPROM cells and the global
    [current_freq]) and a [world] that adds the log of observable actions
    (delays, watchdog resets, EEPROM accesses, calls of the tone
    generator).  Fixed-width C integers are integers of [Z] with their
    truncation written out. *)

From Equations Require Import Equations.
From Stdlib Require Import ZArith List Bool Lia.
Import ListNotations.
Local Open Scope Z_scope.

(** ** Fixed-width integers *)

Definition u8 (x : Z) : Z := x mod 2 ^ 8.
Definition u16 (x : Z) : Z := x mod 2 ^ 16.
Definition u32 (x : Z) : Z := x mod 2 ^ 32.

(** ** Configuration constants *)

(** The two clock rates the [#if F_CPU] guard lets through. *)
Inductive cpu_clock : Type :=
| Clk_1M2   (* 1.2 MHz, CKDIV8 fuse set *)
| Clk_9M6.  (* 9.6 MHz *)

Definition F_CPU (clk : cpu_clock) : Z :=
  match clk with
  | Clk_1M2 => 1200000
  | Clk_9M6 => 9600000
  end.

(** Bit numbers of the ATtiny13A I/O registers ([avr/io.h]). *)
Definition PB1 : Z := 1.
Definition PB3 : Z := 3.
Definition WGM01 : Z := 1.
Definition CS01 : Z := 1.
Definition OCIE0A : Z := 2.
Definition SREG_I : Z := 7.

Definition BUZZER_PIN : Z := PB3.
Definition SIGNAL_PIN : Z := PB1.

Definition DEFAULT_FREQ : Z := 2500.
Definition EEPROM_FREQ_ADDR : Z := 0.
Definition EEPROM_MAGIC_ADDR : Z := 2.
Definition EEPROM_MAGIC : Z := 0xAB.

Definition FREQ_MIN : Z := 2400.
Definition FREQ_MAX : Z := 3000.
Definition FREQ_STEP : Z := 100.

Definition BEEP_SHORT_MS : Z := 100.
Definition BEEP_LONG_MS : Z := 400.
Definition PAUSE_SHORT_MS : Z := 100.
Definition PAUSE_LONG_MS : Z := 300.
Definition CALIB_TONE_MS : Z := 1500.
Definition CALIB_PAUSE_MS : Z := 500.

Definition PRESCALER : Z := 8.

(** ** Hardware state *)

(** EEPROM cells by byte address. *)
Definition eeprom_mem : Type := Z -> Z.

Record mcu : Type := Mcu {
  OCR0A : Z;
  DDRB : Z;
  PORTB : Z;
  TCCR0A : Z;
  TCCR0B : Z;
  TIMSK0 : Z;
  SREG : Z;
  eeprom : eeprom_mem;
  current_freq : Z
}.

Definition set_OCR0A (v : Z) (m : mcu) : mcu :=
  Mcu v (DDRB m) (PORTB m) (TCCR0A m) (TCCR0B m) (TIMSK0 m) (SREG m)
      (eeprom m) (current_freq m).
Definition set_DDRB (v : Z) (m : mcu) : mcu :=
  Mcu (OCR0A m) v (PORTB m) (TCCR0A m) (TCCR0B m) (TIMSK0 m) (SREG m)
      (eeprom m) (current_freq m).
Definition set_PORTB (v : Z) (m : mcu) : mcu :=
  Mcu (OCR0A m) (DDRB m) v (TCCR0A m) (TCCR0B m) (TIMSK0 m) (SREG m)
      (eeprom m) (current_freq m).
Definition set_TCCR0A (v : Z) (m : mcu) : mcu :=
  Mcu (OCR0A m) (DDRB m) (PORTB m) v (TCCR0B m) (TIMSK0 m) (SREG m)
      (eeprom m) (current_freq m).
Definition set_TCCR0B (v : Z) (m : mcu) : mcu :=
  Mcu (OCR0A m) (DDRB m) (PORTB m) (TCCR0A m) v (TIMSK0 m) (SREG m)
      (eeprom m) (current_freq m).
Definition set_TIMSK0 (v : Z) (m : mcu) : mcu :=
  Mcu (OCR0A m) (DDRB m) (PORTB m) (TCCR0A m) (TCCR0B m) v (SREG m)
      (eeprom m) (current_freq m).
Definition set_SREG (v : Z) (m : mcu) : mcu :=
  Mcu (OCR0A m) (DDRB m) (PORTB m) (TCCR0A m) (TCCR0B m) (TIMSK0 m) v
      (eeprom m) (current_freq m).
Definition set_eeprom (e : eeprom_mem) (m : mcu) : mcu :=
  Mcu (OCR0A m) (DDRB m) (PORTB m) (TCCR0A m) (TCCR0B m) (TIMSK0 m) (SREG m)
      e (current_freq m).
Definition set_current_freq (v : Z) (m : mcu) : mcu :=
  Mcu (OCR0A m) (DDRB m) (PORTB m) (TCCR0A m) (TCCR0B m) (TIMSK0 m) (SREG m)
      (eeprom m) v.

(** [reg |= (1 << b)] and [reg &= ~(1 << b)] on an 8-bit register. *)
Definition bit_set (reg b : Z) : Z := u8 (Z.lor reg (Z.shiftl 1 b)).
Definition bit_clear (reg b : Z) : Z := u8 (Z.land reg (Z.lnot (Z.shiftl 1 b))).
Definition bit_toggle (reg b : Z) : Z := u8 (Z.lxor reg (Z.shiftl 1 b)).

(** ** Tone generator *)

(** [ISR(TIM0_COMPA_vect)]: invert PB3. *)
Definition TIM0_COMPA_vect (m : mcu) : mcu :=
  set_PORTB (bit_toggle (PORTB m) BUZZER_PIN) m.

(** A compare match of Timer0: the handler runs when the interrupt is
    unmasked and interrupts are enabled globally. *)
Definition compare_match (m : mcu) : mcu :=
  if Z.testbit (TIMSK0 m) OCIE0A && Z.testbit (SREG m) SREG_I
  then TIM0_COMPA_vect m
  else m.

(** The literal the code divides by: 600000UL at 9.6 MHz, 75000UL otherwise. *)
Definition timer_rate (clk : cpu_clock) : Z :=
  match clk with
  | Clk_9M6 => 600000
  | Clk_1M2 => 75000
  end.

(** [uint16_t ocr_val = (RATE / freq) - 1;] followed by the two limits. *)
Definition ocr_val (clk : cpu_clock) (freq : Z) : Z :=
  let v := u16 (u32 (timer_rate clk / freq - 1)) in
  let v := if 255 <? v then 255 else v in
  let v := if v <? 1 then 1 else v in
  v.

Definition sei (m : mcu) : mcu := set_SREG (bit_set (SREG m) SREG_I) m.

Definition tone_start (clk : cpu_clock) (freq : Z) (m : mcu) : mcu :=
  if freq =? 0 then m
  else
    let m := set_OCR0A (u8 (ocr_val clk freq)) m in
    let m := set_DDRB (bit_set (DDRB m) BUZZER_PIN) m in
    let m := set_TCCR0A (u8 (Z.shiftl 1 WGM01)) m in
    let m := set_TCCR0B (u8 (Z.shiftl 1 CS01)) m in
    let m := set_TIMSK0 (bit_set (TIMSK0 m) OCIE0A) m in
    sei m.

Definition tone_stop (m : mcu) : mcu :=
  let m := set_TIMSK0 (bit_clear (TIMSK0 m) OCIE0A) m in
  let m := set_TCCR0A 0 m in
  let m := set_TCCR0B 0 m in
  set_PORTB (bit_clear (PORTB m) BUZZER_PIN) m.

(** ** Observable actions and the world *)

Inductive event : Type :=
| EvDelayMs (ms : Z)
| EvDelayUs (us : Z)
| EvWdtEnable
| EvWdtReset
| EvEepromReadByte (addr : Z)
| EvEepromReadWord (addr : Z)
| EvEepromWriteByte (addr v : Z)
| EvEepromWriteWord (addr v : Z)
| EvToneStart (freq : Z)
| EvToneStop.

(** The world: the hardware, the log of actions so far, and the input line
    as the environment drives it ([line n] is the value of PINB seen by the
    [n]-th read; [reads] counts the reads made so far). *)
Record world : Type := World {
  hw : mcu;
  trace : list event;
  line : nat -> Z;
  reads : nat
}.

Definition emit (ev : event) (w : world) : world :=
  World (hw w) (trace w ++ [ev]) (line w) (reads w).
Definition on_hw (f : mcu -> mcu) (w : world) : world :=
  World (f (hw w)) (trace w) (line w) (reads w).

Definition _delay_ms (ms : Z) (w : world) : world := emit (EvDelayMs ms) w.
Definition _delay_us (us : Z) (w : world) : world := emit (EvDelayUs us) w.
Definition wdt_reset (w : world) : world := emit EvWdtReset w.
Definition wdt_enable (w : world) : world := emit EvWdtEnable w.

(** Reading PINB consumes one sample of the input line. *)
Definition read_PINB (w : world) : Z * world :=
  (u8 (line w (reads w)), World (hw w) (trace w) (line w) (S (reads w))).

(** *** EEPROM primitives ([avr/eeprom.h]); words are little-endian *)

Definition cell_write (a v : Z) (e : eeprom_mem) : eeprom_mem :=
  fun x => if x =? a then v else e x.

Definition read_byte (e : eeprom_mem) (a : Z) : Z := u8 (e a).
Definition read_word (e : eeprom_mem) (a : Z) : Z :=
  read_byte e a + 256 * read_byte e (a + 1).
Definition write_byte (a v : Z) (e : eeprom_mem) : eeprom_mem :=
  cell_write a (u8 v) e.
Definition write_word (a v : Z) (e : eeprom_mem) : eeprom_mem :=
  cell_write (a + 1) (u8 (Z.shiftr v 8)) (cell_write a (u8 v) e).

Definition eeprom_read_byte (a : Z) (w : world) : Z * world :=
  (read_byte (eeprom (hw w)) a, emit (EvEepromReadByte a) w).
Definition eeprom_read_word (a : Z) (w : world) : Z * world :=
  (read_word (eeprom (hw w)) a, emit (EvEepromReadWord a) w).
Definition eeprom_write_byte (a v : Z) (w : world) : world :=
  emit (EvEepromWriteByte a v)
       (on_hw (fun m => set_eeprom (write_byte a v (eeprom m)) m) w).
Definition eeprom_write_word (a v : Z) (w : world) : world :=
  emit (EvEepromWriteWord a v)
       (on_hw (fun m => set_eeprom (write_word a v (eeprom m)) m) w).

(** ** Loops that have no exit: fuel counts the iterations granted *)

Inductive outcome (S : Type) : Type :=
| Returned (s : S)   (* the loop was left *)
| Running (s : S).   (* still inside the loop when the fuel ran out *)

Arguments Returned {S} s.
Arguments Running {S} s.

Fixpoint while_loop {S : Type} (fuel : nat) (cond : S -> bool)
  (body : S -> S) (s : S) : outcome S :=
  match fuel with
  | O => Running s
  | Datatypes.S k =>
      if cond s then while_loop k cond body (body s) else Returned s
  end.

(** The C truth value of an integer condition. *)
Definition c_true (x : Z) : bool := negb (x =? 0).

Section Firmware.

Variable clk : cpu_clock.

(** ** Beeps and pauses *)

(** The 10 ms block loop of [pause]. *)
Equations? pause (duration_ms : Z) (w : world) : world
  by wf (Z.to_nat duration_ms) lt :=
  pause duration_ms w with Z_le_gt_dec 10 duration_ms := {
    | left _ => pause (u16 (duration_ms - 10)) (wdt_reset (_delay_ms 10 w));
    | right _ => w }.
Proof.
  assert (H : u16 (duration_ms - 10) <= duration_ms - 10)
    by (apply Z.mod_le; lia).
  lia.
Qed.

(** The same loop as written inside [beep]. *)
Equations? beep_wait (duration_ms : Z) (w : world) : world
  by wf (Z.to_nat duration_ms) lt :=
  beep_wait duration_ms w with Z_le_gt_dec 10 duration_ms := {
    | left _ => beep_wait (u16 (duration_ms - 10)) (wdt_reset (_delay_ms 10 w));
    | right _ => w }.
Proof.
  assert (H : u16 (duration_ms - 10) <= duration_ms - 10)
    by (apply Z.mod_le; lia).
  lia.
Qed.

(** Calls of the tone generator, logged at entry. *)
Definition call_tone_start (freq : Z) (w : world) : world :=
  on_hw (tone_start clk freq) (emit (EvToneStart freq) w).
Definition call_tone_stop (w : world) : world :=
  on_hw tone_stop (emit EvToneStop w).

Definition beep (freq duration_ms : Z) (w : world) : world :=
  let w := call_tone_start freq w in
  let w := beep_wait duration_ms w in
  call_tone_stop w.

(** ** Persistent frequency store *)

Definition load_freq_from_eeprom (w : world) : Z * world :=
  let (magic, w) := eeprom_read_byte EEPROM_MAGIC_ADDR w in
  if negb (magic =? EEPROM_MAGIC) then (DEFAULT_FREQ, w)
  else
    let (freq, w) := eeprom_read_word EEPROM_FREQ_ADDR w in
    if (freq <? 2400) || (4500 <? freq) then (DEFAULT_FREQ, w)
    else (freq, w).

Definition save_freq_to_eeprom (freq : Z) (w : world) : world :=
  let w := eeprom_write_word EEPROM_FREQ_ADDR freq w in
  eeprom_write_byte EEPROM_MAGIC_ADDR EEPROM_MAGIC w.

(** ** Calibration sweep *)

(** Candidates still to be visited by the [for] loop, as a bound on them. *)
Definition sweep_left (freq : Z) : nat := Z.to_nat (FREQ_MAX + 1 - freq).
Arguments sweep_left : simpl never.

(** The [for] loop of one sweep, entered with the loop variable [freq]. *)
Equations? sweep_from (freq : Z) (w : world) : world
  by wf (sweep_left freq) lt :=
  sweep_from freq w with Z_le_gt_dec freq FREQ_MAX := {
    | left _ =>
        let w := save_freq_to_eeprom freq w in
        let w := on_hw (set_current_freq freq) w in
        let w := beep freq CALIB_TONE_MS w in
        let w := pause CALIB_PAUSE_MS w in
        sweep_from (u16 (freq + FREQ_STEP)) w;
    | right _ => w }.
Proof.
  unfold sweep_left, FREQ_MAX, FREQ_STEP, u16 in *.
  assert (H : freq < (freq + 100) mod 2 ^ 16).
  { destruct (Z_lt_le_dec (freq + 100) 0) as [Hn | Hp].
    - pose proof (Z.mod_pos_bound (freq + 100) (2 ^ 16) ltac:(lia)). lia.
    - rewrite Z.mod_small by lia. lia. }
  lia.
Qed.

(** The body of the endless loop: one sweep, then a pause. *)
Definition sweep_body (w : world) : world :=
  let w := sweep_from FREQ_MIN w in
  pause 1000 w.

Definition auto_sweep_mode (fuel : nat) (w : world) : outcome world :=
  let w := beep DEFAULT_FREQ BEEP_LONG_MS w in
  let w := pause PAUSE_LONG_MS w in
  let w := beep DEFAULT_FREQ BEEP_LONG_MS w in
  let w := pause 500 w in
  while_loop fuel (fun _ => c_true 1) sweep_body w.

(** ** Main program *)

Definition init (w : world) : world :=
  let w := on_hw (fun m => set_DDRB (bit_set (DDRB m) BUZZER_PIN) m) w in
  let w := on_hw (fun m => set_PORTB (bit_clear (PORTB m) BUZZER_PIN) m) w in
  let w := on_hw (fun m => set_DDRB (bit_clear (DDRB m) SIGNAL_PIN) m) w in
  let w := on_hw (fun m => set_PORTB (bit_set (PORTB m) SIGNAL_PIN) m) w in
  let (f, w) := load_freq_from_eeprom w in
  let w := on_hw (set_current_freq f) w in
  wdt_enable w.

Definition fc_wants_sound (w : world) : bool * world :=
  let (pinb, w) := read_PINB w in
  (Z.land pinb (Z.shiftl 1 SIGNAL_PIN) =? 0, w).

(** One pass through the body of the polling loop; the local [sound_on]
    travels with the world. *)
Definition main_loop_body (st : bool * world) : bool * world :=
  let (sound_on, w) := st in
  let (wants, w) := fc_wants_sound w in
  let st :=
    if wants then
      if negb sound_on then
        (true, call_tone_start (current_freq (hw w)) w)
      else (sound_on, w)
    else
      if sound_on then (false, call_tone_stop w)
      else (sound_on, w) in
  let (sound_on, w) := st in
  let w := wdt_reset w in
  let w := _delay_us 100 w in
  (sound_on, w).

Definition main (fuel : nat) (w : world) : outcome (Z * world) :=
  let w := init w in
  let w := _delay_ms 100 w in
  let (cal, w) := fc_wants_sound w in
  match (if cal then auto_sweep_mode fuel w else Returned w) with
  | Running w => Running (0, w)
  | Returned w =>
      let w := beep (current_freq (hw w)) BEEP_SHORT_MS w in
      let w := pause PAUSE_SHORT_MS w in
      let w := beep (current_freq (hw w)) BEEP_SHORT_MS w in
      let w := pause 200 w in
      match while_loop fuel (fun _ => c_true 1) main_loop_body (false, w) with
      | Running (_, w) => Running (0, w)
      | Returned (_, w) => Returned (0, w)
      end
  end.

End Firmware.

(** ** Specification vocabulary *)

Definition clamp (lo hi x : Z) : Z := Z.max lo (Z.min hi x).

(** The divisor of the documented relation, before clamping. *)
Definition ideal_divisor (clk : cpu_clock) (f : Z) : Z :=
  F_CPU clk / (2 * PRESCALER * f) - 1.

(** The frequency a divisor produces on the output line. *)
Definition effective_freq (clk : cpu_clock) (d : Z) : Z :=
  F_CPU clk / (2 * PRESCALER * (d + 1)).

(** Every I/O register the tone generator rewrites holds an 8-bit value. *)
Definition regs_8bit (m : mcu) : Prop :=
  0 <= TIMSK0 m < 256 /\ 0 <= PORTB m < 256.

(** No tone is active: interrupt masked, timer stopped, output line low. *)
Definition tone_idle (m : mcu) : Prop :=
  Z.testbit (TIMSK0 m) OCIE0A = false /\
  TCCR0A m = 0 /\ TCCR0B m = 0 /\
  Z.testbit (PORTB m) BUZZER_PIN = false.

(** The events logged between an earlier world [w] and a later [w']. *)
Definition since (w w' : world) : list event :=
  skipn (length (trace w)) (trace w').

(** [n] sub-delays of 10 ms, each followed by a watchdog reset. *)
Fixpoint blocks (n : nat) : list event :=
  match n with
  | O => []
  | S k => EvDelayMs 10 :: EvWdtReset :: blocks k
  end.

(** A procedure in normal form: a change [H] of the hardware and a list of
    logged events; the input line is left alone. *)
Definition run (H : mcu -> mcu) (evs : list event) (w : world) : world :=
  World (H (hw w)) (trace w ++ evs) (line w) (reads w).

(** Time spent in delays, in microseconds. *)
Fixpoint elapsed_us (tr : list event) : Z :=
  match tr with
  | [] => 0
  | EvDelayMs ms :: rest => 1000 * ms + elapsed_us rest
  | EvDelayUs us :: rest => us + elapsed_us rest
  | _ :: rest => elapsed_us rest
  end.

(** Every delay is a 10 ms sub-delay directly followed by a watchdog reset. *)
Fixpoint wdt_guarded (tr : list event) : bool :=
  match tr with
  | [] => true
  | EvDelayMs ms :: rest =>
      (ms =? 10)
      && match rest with EvWdtReset :: _ => true | _ => false end
      && wdt_guarded rest
  | EvDelayUs _ :: _ => false
  | _ :: rest => wdt_guarded rest
  end.

Fixpoint wdt_resets (tr : list event) : nat :=
  match tr with
  | [] => O
  | EvWdtReset :: rest => S (wdt_resets rest)
  | _ :: rest => wdt_resets rest
  end.

(** The frequency the next boot would get from a given EEPROM content. *)
Definition next_boot_freq (e : eeprom_mem) : Z :=
  if read_byte e EEPROM_MAGIC_ADDR =? EEPROM_MAGIC then
    if (2400 <=? read_word e EEPROM_FREQ_ADDR)
       && (read_word e EEPROM_FREQ_ADDR <=? 4500)
    then read_word e EEPROM_FREQ_ADDR
    else DEFAULT_FREQ
  else DEFAULT_FREQ.

(** The relay's two states, as the local [sound_on] encodes them. *)
Inductive relay_state : Type := SILENT | SOUNDING.

Definition relay_of (sound_on : bool) : relay_state :=
  if sound_on then SOUNDING else SILENT.

(** Electrical level of the input pin in a sample of PINB. *)
Definition pin_low (v : Z) : Prop := Z.testbit v SIGNAL_PIN = false.
Definition pin_high (v : Z) : Prop := Z.testbit v SIGNAL_PIN = true.

(** Whether the sample the next read will see has the input pin low. *)
Definition line_asserted (w : world) : bool :=
  negb (Z.testbit (line w (reads w)) SIGNAL_PIN).

(** The world after one read of PINB. *)
Definition polled (w : world) : world :=
  World (hw w) (trace w) (line w) (S (reads w)).

Fixpoint tone_starts (tr : list event) : nat :=
  match tr with
  | [] => O
  | EvToneStart _ :: rest => S (tone_starts rest)
  | _ :: rest => tone_starts rest
  end.

Fixpoint tone_stops (tr : list event) : nat :=
  match tr with
  | [] => O
  | EvToneStop :: rest => S (tone_stops rest)
  | _ :: rest => tone_stops rest
  end.

(** The relay claim read with LOW and HIGH as the levels of the pin: three
    polls from SILENT that see LOW, HIGH, LOW end in SILENT after exactly
    one start and one stop. *)
Definition relay_low_high_low_claim (clk : cpu_clock) (w : world) : Prop :=
  pin_low (line w (reads w)) ->
  pin_high (line w (S (reads w))) ->
  pin_low (line w (S (S (reads w)))) ->
  let st3 :=
    main_loop_body clk
      (main_loop_body clk (main_loop_body clk (false, w))) in
  relay_of (fst st3) = SILENT /\
  tone_starts (since w (snd st3)) = 1%nat /\
  tone_stops (since w (snd st3)) = 1%nat.

(** *** Calibration: what an observer of the log knows *)

(** The candidates of one sweep, in the order they are visited. *)
Definition candidates : list Z := [2400; 2500; 2600; 2700; 2800; 2900; 3000].

(** The log of one candidate: save, then 1.5 s of tone, then 0.5 s pause. *)
Definition step_events (f : Z) : list event :=
  [EvEepromWriteWord EEPROM_FREQ_ADDR f;
   EvEepromWriteByte EEPROM_MAGIC_ADDR EEPROM_MAGIC;
   EvToneStart f]
  ++ blocks 150 ++ [EvToneStop] ++ blocks 50.

Definition sweep_events : list event :=
  flat_map step_events candidates ++ blocks 100.

(** The two long confirmation beeps and their pauses. *)
Definition intro_events : list event :=
  (EvToneStart DEFAULT_FREQ :: blocks 40 ++ [EvToneStop]) ++ blocks 30
  ++ (EvToneStart DEFAULT_FREQ :: blocks 40 ++ [EvToneStop]) ++ blocks 50.

Fixpoint repeat_events (n : nat) (evs : list event) : list event :=
  match n with
  | O => []
  | S k => evs ++ repeat_events k evs
  end.

(** An observer follows the EEPROM content and the frequency of the tone
    started last (the one sounding or heard most recently). *)
Record obs : Type := Obs {
  ob_eeprom : eeprom_mem;
  ob_heard : option Z
}.

Definition observe (o : obs) (ev : event) : obs :=
  match ev with
  | EvEepromWriteByte a v => Obs (write_byte a v (ob_eeprom o)) (ob_heard o)
  | EvEepromWriteWord a v => Obs (write_word a v (ob_eeprom o)) (ob_heard o)
  | EvToneStart f => Obs (ob_eeprom o) (Some f)
  | _ => o
  end.

Definition replay (o : obs) (tr : list event) : obs := fold_left observe tr o.

(** At the start of every tone the frequency is already the persisted one. *)
Definition saved_before_played (o : obs) (tr : list event) : Prop :=
  forall p f q, tr = p ++ EvToneStart f :: q ->
    next_boot_freq (ob_eeprom (replay o p)) = f.

(** Whenever time passes, the persisted frequency is the one heard last. *)
Definition persisted_is_heard (o : obs) (tr : list event) : Prop :=
  forall p ms q, tr = p ++ EvDelayMs ms :: q ->
    ob_heard (replay o p) = Some (next_boot_freq (ob_eeprom (replay o p))).

Definition obs_ok_at (o : obs) (ev : event) : bool :=
  match ev with
  | EvToneStart f => next_boot_freq (ob_eeprom o) =? f
  | EvDelayMs _ =>
      match ob_heard o with
      | Some h => next_boot_freq (ob_eeprom o) =? h
      | None => false
      end
  | _ => true
  end.

Fixpoint calib_check (o : obs) (tr : list event) : bool :=
  match tr with
  | [] => true
  | ev :: rest => obs_ok_at o ev && calib_check (observe o ev) rest
  end.

(** The frequencies of the tones started, in order. *)
Fixpoint played (tr : list event) : list Z :=
  match tr with
  | [] => []
  | EvToneStart f :: rest => f :: played rest
  | _ :: rest => played rest
  end.

(** The observer has heard [f] last and [f] is what the next boot loads. *)
Definition settled (o : obs) (f : Z) : Prop :=
  ob_heard o = Some f /\ next_boot_freq (ob_eeprom o) = f.

(** The calibration claim with "every point during calibration" taken as
    every delay from the entry of [auto_sweep_mode] on. *)
Definition calibration_claim (clk : cpu_clock) (fuel : nat) (w : world)
  : Prop :=
  exists w', auto_sweep_mode clk fuel w = Running w' /\
             persisted_is_heard (Obs (eeprom (hw w)) None) (since w w').

(** The hardware after one candidate, and after one sweep. *)
Definition step_hw (clk : cpu_clock) (f : Z) (m : mcu) : mcu :=
  tone_stop
    (tone_start clk f
       (set_current_freq f
          (set_eeprom
             (write_byte EEPROM_MAGIC_ADDR EEPROM_MAGIC
                (write_word EEPROM_FREQ_ADDR f (eeprom m))) m))).

Definition sweep_hw (clk : cpu_clock) (m : mcu) : mcu :=
  fold_left (fun m f => step_hw clk f m) candidates m.

Definition intro_hw (clk : cpu_clock) (m : mcu) : mcu :=
  tone_stop (tone_start clk DEFAULT_FREQ
               (tone_stop (tone_start clk DEFAULT_FREQ m))).

(** *** Vocabulary for the rest of the program *)

(** The tone generator is armed for the current frequency: interrupt
    unmasked, interrupts enabled, Timer0 in CTC mode with prescaler 8 and
    the divisor of [current_freq] in the compare register. *)
Definition tone_armed (clk : cpu_clock) (m : mcu) : Prop :=
  Z.testbit (TIMSK0 m) OCIE0A = true /\
  Z.testbit (SREG m) SREG_I = true /\
  TCCR0A m = 2 /\ TCCR0B m = 2 /\
  OCR0A m = clamp 1 255 (ideal_divisor clk (current_freq m)).

(** The hardware agrees with the relay's [sound_on]. *)
Definition relay_consistent (clk : cpu_clock) (st : bool * world) : Prop :=
  if fst st then tone_armed clk (hw (snd st)) else tone_idle (hw (snd st)).

Definition bool_count (b : bool) : nat := if b then 1%nat else O.

Fixpoint eeprom_writes (tr : list event) : nat :=
  match tr with
  | [] => O
  | EvEepromWriteByte _ _ :: rest => S (eeprom_writes rest)
  | EvEepromWriteWord _ _ :: rest => S (eeprom_writes rest)
  | _ :: rest => eeprom_writes rest
  end.

(** What [load_freq_from_eeprom] logs on a given EEPROM content. *)
Definition load_events (e : eeprom_mem) : list event :=
  if read_byte e EEPROM_MAGIC_ADDR =? EEPROM_MAGIC
  then [EvEepromReadByte EEPROM_MAGIC_ADDR; EvEepromReadWord EEPROM_FREQ_ADDR]
  else [EvEepromReadByte EEPROM_MAGIC_ADDR].

(** The log of [main] up to the boot-time sample of the input line. *)
Definition boot_events (e : eeprom_mem) : list event :=
  load_events e ++ [EvWdtEnable; EvDelayMs 100].

(** The two short beeps of a normal start at frequency [f]. *)
Definition chime_events (f : Z) : list event :=
  (EvToneStart f :: blocks 10 ++ [EvToneStop]) ++ blocks 10
  ++ (EvToneStart f :: blocks 10 ++ [EvToneStop]) ++ blocks 20.

(** The pin set-up of [init], and the hardware [init] leaves. *)
Definition init_pins (m : mcu) : mcu :=
  let m := set_DDRB (bit_set (DDRB m) BUZZER_PIN) m in
  let m := set_PORTB (bit_clear (PORTB m) BUZZER_PIN) m in
  let m := set_DDRB (bit_clear (DDRB m) SIGNAL_PIN) m in
  set_PORTB (bit_set (PORTB m) SIGNAL_PIN) m.

Definition init_hw (m : mcu) : mcu :=
  set_current_freq (next_boot_freq (eeprom m)) (init_pins m).


(** [P] holds on the [n] integers from [lo] on. *)
Fixpoint forall_range (n : nat) (lo : Z) (P : Z -> bool) : bool :=
  match n with
  | O => true
  | S k => P lo && forall_range k (lo + 1) P
  end.

(** ** Sample states *)

(** The machine after reset with an erased EEPROM (every cell reads 0xFF). *)
Definition mcu_reset : mcu :=
  Mcu 0 0 0 0 0 0 0 (fun _ => 0xFF) DEFAULT_FREQ.

Definition world_reset : world := World mcu_reset [] (fun _ => 0xFF) O.

(** A machine calibrated earlier to 2700 Hz (0x0A8C) with a valid marker. *)
Definition mcu_calibrated_2700 : mcu :=
  Mcu 0 0 0 0 0 0 0
      (fun a => if a =? 0 then 0x8C else if a =? 1 then 0x0A
                else if a =? 2 then EEPROM_MAGIC else 0xFF)
      DEFAULT_FREQ.

(** A stored word outside the accepted range (5000 = 0x1388), marker valid. *)
Definition mcu_corrupted : mcu :=
  Mcu 0 0 0 0 0 0 0
      (fun a => if a =? 0 then 0x88 else if a =? 1 then 0x13
                else if a =? 2 then EEPROM_MAGIC else 0xFF)
      DEFAULT_FREQ.

(** An input line that is low, then high, then low again. *)
Definition world_low_high_low : world :=
  World mcu_reset [] (fun n => match n with 1%nat => 0xFF | _ => 0xFD end) O.

(** An input line that is high, then low, then high again. *)
Definition world_high_low_high : world :=
  World mcu_reset [] (fun n => match n with 1%nat => 0xFD | _ => 0xFF end) O.

Definition world_calibrated_2700 : world :=
  World mcu_calibrated_2700 [] (fun _ => 0xFD) O.

(** * Proofs *)

(** ** Bit-level facts *)

Lemma u8_land (x : Z) : u8 x = Z.land x 255.
Proof. unfold u8. change 255 with (Z.ones 8). now rewrite Z.land_ones. Qed.

Lemma u8_small (x : Z) : 0 <= x < 256 -> u8 x = x.
Proof. intros H. unfold u8. apply Z.mod_small. simpl. lia. Qed.

Lemma u8_range (x : Z) : 0 <= u8 x < 256.
Proof. unfold u8. apply Z.mod_pos_bound. reflexivity. Qed.

Lemma bit_clear_idem (x b : Z) : bit_clear (bit_clear x b) b = bit_clear x b.
Proof.
  unfold bit_clear. rewrite !u8_land.
  apply Z.bits_inj'. intros n _. rewrite !Z.land_spec.
  destruct (Z.testbit x n), (Z.testbit (Z.lnot (Z.shiftl 1 b)) n),
    (Z.testbit 255 n); reflexivity.
Qed.

Lemma bit_clear_testbit (x b : Z) :
  0 <= b -> Z.testbit (bit_clear x b) b = false.
Proof.
  intros Hb. unfold bit_clear. rewrite u8_land, !Z.land_spec.
  rewrite Z.lnot_spec by assumption.
  rewrite Z.shiftl_1_l, Z.pow2_bits_true by assumption.
  simpl. now rewrite andb_false_r.
Qed.

Lemma bit_clear_noop (x b : Z) :
  0 <= b -> 0 <= x < 256 -> Z.testbit x b = false -> bit_clear x b = x.
Proof.
  intros Hb Hx Hbit. unfold bit_clear.
  rewrite <- (u8_small x Hx) at 2. rewrite !u8_land.
  apply Z.bits_inj'. intros n Hn. rewrite !Z.land_spec.
  rewrite Z.lnot_spec by assumption. rewrite Z.shiftl_1_l.
  destruct (Z.eq_dec b n) as [-> | Hne].
  - rewrite Hbit. reflexivity.
  - rewrite Z.pow2_bits_false by assumption. simpl.
    now rewrite andb_true_r.
Qed.

(** ** Tone generator *)

Lemma rate_is_clock_over_16 (clk : cpu_clock) (f : Z) :
  0 < f -> F_CPU clk / (2 * PRESCALER * f) = timer_rate clk / f.
Proof.
  intros Hf. unfold PRESCALER. change (2 * 8 * f) with (16 * f).
  rewrite <- Z.div_div by lia. now destruct clk.
Qed.

Lemma timer_rate_pos (clk : cpu_clock) : 65536 <= timer_rate clk <= 600000.
Proof. destruct clk; simpl; lia. Qed.

(** The 16-bit truncation of the quotient never brings a large value back
    under the upper limit. *)
Lemma ocr_val_clamp (clk : cpu_clock) (f : Z) :
  0 < f < 65536 -> ocr_val clk f = clamp 1 255 (timer_rate clk / f - 1).
Proof.
  intros Hf. destruct (Z_lt_le_dec f 10) as [Hsmall | Hbig].
  - assert (Hc : f = 1 \/ f = 2 \/ f = 3 \/ f = 4 \/ f = 5 \/ f = 6 \/
                 f = 7 \/ f = 8 \/ f = 9) by lia.
    destruct clk; repeat (destruct Hc as [-> | Hc]; [reflexivity |]);
      subst f; reflexivity.
  - pose proof (timer_rate_pos clk) as [Hlo Hhi].
    assert (Hq1 : 1 <= timer_rate clk / f).
    { apply Z.div_le_lower_bound; lia. }
    assert (Hq2 : timer_rate clk / f <= 60000).
    { apply Z.div_le_upper_bound; nia. }
    unfold ocr_val, u16, u32, clamp.
    rewrite (Z.mod_small (timer_rate clk / f - 1) (2 ^ 32)) by (simpl; lia).
    rewrite (Z.mod_small (timer_rate clk / f - 1) (2 ^ 16)) by (simpl; lia).
    destruct (Z.ltb_spec 255 (timer_rate clk / f - 1)).
    + simpl. lia.
    + destruct (Z.ltb_spec (timer_rate clk / f - 1) 1); lia.
Qed.

Lemma clamp_range (lo hi x : Z) : lo <= hi -> lo <= clamp lo hi x <= hi.
Proof. unfold clamp. lia. Qed.

Lemma OCR0A_tone_start (clk : cpu_clock) (f : Z) (m : mcu) :
  0 < f < 65536 ->
  OCR0A (tone_start clk f m) = clamp 1 255 (ideal_divisor clk f).
Proof.
  intros Hf. unfold tone_start.
  destruct (Z.eqb_spec f 0) as [-> | _]; [lia |].
  simpl. rewrite ocr_val_clamp by assumption.
  unfold ideal_divisor. rewrite rate_is_clock_over_16 by lia.
  apply u8_small. pose proof (clamp_range 1 255 (timer_rate clk / f - 1)). lia.
Qed.

Lemma effective_freq_rate (clk : cpu_clock) (d : Z) :
  0 <= d -> effective_freq clk d = timer_rate clk / (d + 1).
Proof. intros Hd. unfold effective_freq. apply rate_is_clock_over_16. lia. Qed.

Lemma effective_freq_antitone (clk : cpu_clock) (d1 d2 : Z) :
  0 <= d1 <= d2 -> effective_freq clk d2 <= effective_freq clk d1.
Proof.
  intros H. rewrite !effective_freq_rate by lia.
  pose proof (timer_rate_pos clk).
  apply Z.div_le_compat_l; lia.
Qed.

Lemma divisor_antitone (clk : cpu_clock) (f1 f2 : Z) :
  0 < f1 <= f2 ->
  clamp 1 255 (ideal_divisor clk f2) <= clamp 1 255 (ideal_divisor clk f1).
Proof.
  intros H. unfold ideal_divisor. rewrite !rate_is_clock_over_16 by lia.
  pose proof (timer_rate_pos clk).
  assert (timer_rate clk / f2 <= timer_rate clk / f1)
    by (apply Z.div_le_compat_l; lia).
  unfold clamp. lia.
Qed.

(** Inside the sweep range the divisor is not clamped. *)
Lemma sweep_range_divisor (clk : cpu_clock) (f : Z) :
  2400 <= f <= 3000 ->
  clamp 1 255 (ideal_divisor clk f) = timer_rate clk / f - 1 /\
  25 <= timer_rate clk / f <= 250.
Proof.
  intros Hf. unfold ideal_divisor. rewrite rate_is_clock_over_16 by lia.
  assert (H : 25 <= timer_rate clk / f <= 250).
  { split.
    - apply Z.div_le_lower_bound; [lia |]. destruct clk; simpl; lia.
    - apply Z.div_le_upper_bound; [lia |]. destruct clk; simpl; lia. }
  split; [unfold clamp; lia | exact H].
Qed.

Lemma quotient_brackets (r f : Z) :
  0 < f -> 0 < r / f -> r / (r / f + 1) < f <= r / (r / f).
Proof.
  intros Hf Hq. split.
  - apply Z.div_lt_upper_bound; [lia |].
    pose proof (Z.mul_succ_div_gt r f Hf). lia.
  - apply Z.div_le_lower_bound; [lia |].
    pose proof (Z.mul_div_le r f Hf). lia.
Qed.

(** ** Claims about the tone generator *)

(** C3: [tone_start 0] leaves the hardware as it is; for a frequency
    [f > 0] the compare register receives the divisor
    [clock / (2 * prescaler * f) - 1] (that is [75000 / f - 1] or
    [600000 / f - 1]) clamped to [1, 255], and when that divisor falls
    outside the range no representable frequency is nearer to [f] than the
    one played. *)
Theorem tone_start_divisor (clk : cpu_clock) (m : mcu) (f : Z) :
  0 < f < 65536 ->
  tone_start clk 0 m = m /\
  ideal_divisor clk f = timer_rate clk / f - 1 /\
  OCR0A (tone_start clk f m) = clamp 1 255 (ideal_divisor clk f) /\
  1 <= OCR0A (tone_start clk f m) <= 255 /\
  (~ 1 <= ideal_divisor clk f <= 255 ->
   forall d, 1 <= d <= 255 ->
     Z.abs (effective_freq clk (OCR0A (tone_start clk f m)) - f)
     <= Z.abs (effective_freq clk d - f)).
Proof.
  intros Hf.
  assert (Hideal : ideal_divisor clk f = timer_rate clk / f - 1).
  { unfold ideal_divisor. now rewrite rate_is_clock_over_16 by lia. }
  split; [reflexivity |]. split; [exact Hideal |].
  rewrite OCR0A_tone_start by assumption.
  split; [reflexivity |]. split; [apply clamp_range; lia |].
  intros Hout d Hd. rewrite Hideal in *.
  pose proof (timer_rate_pos clk) as Hr.
  destruct (Z_lt_le_dec 255 (timer_rate clk / f - 1)) as [Hhigh | Hlow].
  - (* wanted divisor above 255: every representable frequency is >= f *)
    replace (clamp 1 255 (timer_rate clk / f - 1)) with 255
      by (unfold clamp; lia).
    assert (Hd255 : effective_freq clk 255 <= effective_freq clk d)
      by (apply effective_freq_antitone; lia).
    assert (Hf255 : f <= effective_freq clk 255).
    { rewrite effective_freq_rate by lia.
      apply Z.div_le_lower_bound; [lia |].
      pose proof (Z.mul_div_le (timer_rate clk) f ltac:(lia)). nia. }
    lia.
  - (* wanted divisor below 1: every representable frequency is < f *)
    assert (Hq : timer_rate clk / f - 1 < 1) by lia.
    replace (clamp 1 255 (timer_rate clk / f - 1)) with 1
      by (unfold clamp; lia).
    assert (Hd1 : effective_freq clk d <= effective_freq clk 1)
      by (apply effective_freq_antitone; lia).
    assert (Hf1 : effective_freq clk 1 < f).
    { rewrite effective_freq_rate by lia.
      apply Z.div_lt_upper_bound; [lia |].
      pose proof (Z.mul_succ_div_gt (timer_rate clk) f ltac:(lia)). nia. }
    lia.
Qed.

Lemma tone_start_divisor_witness :
  0 < 100 < 65536 /\
  OCR0A (tone_start Clk_1M2 100 mcu_reset) = 255 /\
  effective_freq Clk_1M2 255 = 292.
Proof.
  split; [lia |].
  destruct (tone_start_divisor Clk_1M2 mcu_reset 100 ltac:(lia))
    as (_ & _ & H & _).
  split; [rewrite H; reflexivity | reflexivity].
Defined.

(** C4: for every frequency [f] of the sweep range [2400, 3000] the divisor
    [d] loaded by [tone_start] is not clamped, and [f] lies between the
    frequencies of the neighbouring divisors [d + 1] and [d], so the
    effective frequency is less than one representable step above [f];
    the map from divisors to frequencies is monotonic (a larger divisor
    never gives a higher frequency), and every divisor loaded stays in
    [1, 255]. *)
Theorem sweep_freq_within_one_step (clk : cpu_clock) (m : mcu) (f : Z) :
  2400 <= f <= 3000 ->
  let d := OCR0A (tone_start clk f m) in
  d = ideal_divisor clk f /\
  1 <= d /\ d + 1 <= 255 /\
  effective_freq clk (d + 1) < f <= effective_freq clk d /\
  0 <= effective_freq clk d - f
    < effective_freq clk d - effective_freq clk (d + 1) /\
  (forall d1 d2, 1 <= d1 <= d2 -> d2 <= 255 ->
     effective_freq clk d2 <= effective_freq clk d1) /\
  (forall g, 0 < g < 65536 -> 1 <= OCR0A (tone_start clk g m) <= 255) /\
  (forall g1 g2, 0 < g1 <= g2 -> g2 < 65536 ->
     OCR0A (tone_start clk g2 m) <= OCR0A (tone_start clk g1 m)).
Proof.
  intros Hf d. subst d.
  rewrite OCR0A_tone_start by lia.
  destruct (sweep_range_divisor clk f Hf) as [Hd Hq].
  assert (Hideal : ideal_divisor clk f = timer_rate clk / f - 1).
  { unfold ideal_divisor. now rewrite rate_is_clock_over_16 by lia. }
  rewrite Hd.
  assert (Hbr : effective_freq clk (timer_rate clk / f - 1 + 1) < f
                <= effective_freq clk (timer_rate clk / f - 1)).
  { rewrite !effective_freq_rate by lia.
    replace (timer_rate clk / f - 1 + 1 + 1) with (timer_rate clk / f + 1)
      by lia.
    replace (timer_rate clk / f - 1 + 1) with (timer_rate clk / f) by lia.
    apply quotient_brackets; lia. }
  repeat split; try lia.
  - intros d1 d2 H1 H2. apply effective_freq_antitone. lia.
  - rewrite OCR0A_tone_start by assumption.
    pose proof (clamp_range 1 255 (ideal_divisor clk g)). lia.
  - rewrite OCR0A_tone_start by assumption.
    pose proof (clamp_range 1 255 (ideal_divisor clk g)). lia.
  - intros g1 g2 H1 H2. rewrite !OCR0A_tone_start by lia.
    apply divisor_antitone. lia.
Qed.

Lemma sweep_freq_within_one_step_witness :
  2400 <= 2885 <= 3000 /\
  OCR0A (tone_start Clk_1M2 2885 mcu_reset) = 24 /\
  effective_freq Clk_1M2 25 < 2885 <= effective_freq Clk_1M2 24.
Proof.
  split; [lia |].
  pose proof (sweep_freq_within_one_step Clk_1M2 mcu_reset 2885 ltac:(lia))
    as H.
  cbv zeta in H. destruct H as (Hd & _ & _ & Hbr & _).
  split; [rewrite Hd; reflexivity |].
  rewrite Hd in Hbr. exact Hbr.
Defined.

(** C8: [tone_stop] is idempotent: stopping twice gives the state of
    stopping once; after any call the compare-match interrupt is masked,
    the timer is stopped and the output line is low, and a compare match
    no longer moves it; and on a machine where no tone is active the call
    changes nothing. *)
Theorem tone_stop_idempotent (m : mcu) :
  tone_stop (tone_stop m) = tone_stop m /\
  tone_idle (tone_stop m) /\
  compare_match (tone_stop m) = tone_stop m /\
  (regs_8bit m -> tone_idle m -> tone_stop m = m).
Proof.
  assert (Hidle : tone_idle (tone_stop m)).
  { unfold tone_idle, tone_stop, set_PORTB, set_TCCR0A, set_TCCR0B, set_TIMSK0.
    cbn [TIMSK0 TCCR0A TCCR0B PORTB].
    repeat split; apply bit_clear_testbit; discriminate. }
  split; [| split; [exact Hidle | split]].
  - unfold tone_stop. simpl. now rewrite !bit_clear_idem.
  - unfold compare_match. destruct Hidle as (-> & _). reflexivity.
  - intros [Ht Hp] (Hmask & Ha & Hb & Hout).
    destruct m as [ocr ddr port tca tcb timsk sreg ee cf]. simpl in *.
    unfold tone_stop, set_TIMSK0, set_TCCR0A, set_TCCR0B, set_PORTB. simpl.
    rewrite (bit_clear_noop timsk OCIE0A) by (assumption || discriminate).
    rewrite (bit_clear_noop port BUZZER_PIN) by (assumption || discriminate).
    now subst.
Qed.

Lemma tone_stop_idempotent_witness :
  regs_8bit mcu_reset /\ tone_idle mcu_reset /\
  tone_stop mcu_reset = mcu_reset.
Proof.
  assert (H8 : regs_8bit mcu_reset) by (unfold regs_8bit; simpl; lia).
  assert (Hidle : tone_idle mcu_reset) by (repeat split).
  split; [exact H8 |]. split; [exact Hidle |].
  exact (proj2 (proj2 (proj2 (tone_stop_idempotent mcu_reset))) H8 Hidle).
Defined.

(** ** Normal forms of the procedures *)

Lemma run_id_nil (w : world) : run (fun m => m) [] w = w.
Proof. destruct w. unfold run. simpl. now rewrite app_nil_r. Qed.

Lemma run_run (H1 H2 : mcu -> mcu) (e1 e2 : list event) (w : world) :
  run H2 e2 (run H1 e1 w) = run (fun m => H2 (H1 m)) (e1 ++ e2) w.
Proof. unfold run. simpl. now rewrite app_assoc. Qed.

Lemma emit_run (ev : event) (w : world) : emit ev w = run (fun m => m) [ev] w.
Proof. reflexivity. Qed.

Lemma on_hw_run (H : mcu -> mcu) (w : world) : on_hw H w = run H [] w.
Proof. unfold on_hw, run. now rewrite app_nil_r. Qed.

Lemma since_app (w w' : world) (evs : list event) :
  trace w' = trace w ++ evs -> since w w' = evs.
Proof.
  intros Heq. unfold since. rewrite Heq.
  generalize (trace w) as t. induction t as [| ev t IH]; simpl; auto.
Qed.

Lemma since_run (H : mcu -> mcu) (evs : list event) (w : world) :
  since w (run H evs w) = evs.
Proof. now apply since_app. Qed.

Lemma hw_run (H : mcu -> mcu) (evs : list event) (w : world) :
  hw (run H evs w) = H (hw w).
Proof. reflexivity. Qed.

Section FirmwareFacts.

Variable clk : cpu_clock.

Lemma pause_blocks (d : Z) (w : world) :
  exists n, pause d w = run (fun m => m) (blocks n) w /\
            (d < 65536 -> n = Z.to_nat (d / 10)).
Proof.
  funelim (pause d w).
  - destruct H as (n & Hn & Hcount).
    exists (S n). split.
    + rewrite Hn. unfold wdt_reset, _delay_ms.
      rewrite !emit_run, !run_run. reflexivity.
    + intros Hd. rewrite Hcount by apply Z.mod_pos_bound, eq_refl.
      unfold u16. rewrite Z.mod_small by (simpl; lia).
      assert (Hq : duration_ms / 10 = Z.succ ((duration_ms - 10) / 10)).
      { replace duration_ms with ((duration_ms - 10) + 1 * 10) at 1 by lia.
        rewrite Z.div_add by lia. lia. }
      rewrite Hq, Z2Nat.inj_succ by (apply Z.div_pos; lia). reflexivity.
  - exists O. split.
    + symmetry. apply run_id_nil.
    + intros _. destruct (Z_lt_le_dec duration_ms 0).
      * pose proof (Z.div_lt_upper_bound duration_ms 10 0 ltac:(lia) ltac:(lia)).
        lia.
      * rewrite Z.div_small by lia. reflexivity.
Qed.

Lemma pause_step (d : Z) (w : world) :
  10 <= d -> pause d w = pause (u16 (d - 10)) (wdt_reset (_delay_ms 10 w)).
Proof. intros Hd. funelim (pause d w); [reflexivity | lia]. Qed.

Lemma pause_exit (d : Z) (w : world) : d < 10 -> pause d w = w.
Proof. intros Hd. funelim (pause d w); [lia | reflexivity]. Qed.

Lemma beep_wait_is_pause (d : Z) (w : world) : beep_wait d w = pause d w.
Proof.
  funelim (beep_wait d w).
  - rewrite H. symmetry. now apply pause_step.
  - symmetry. apply pause_exit. lia.
Qed.

Lemma beep_blocks (f d : Z) (w : world) :
  exists n,
    beep clk f d w
    = run (fun m => tone_stop (tone_start clk f m))
          (EvToneStart f :: blocks n ++ [EvToneStop]) w /\
    (d < 65536 -> n = Z.to_nat (d / 10)).
Proof.
  unfold beep. rewrite beep_wait_is_pause.
  destruct (pause_blocks d (call_tone_start clk f w)) as (n & Hn & Hcount).
  exists n. split; [| exact Hcount].
  rewrite Hn. unfold call_tone_stop, call_tone_start.
  rewrite !emit_run, !on_hw_run, !run_run. reflexivity.
Qed.

Lemma save_run (f : Z) (w : world) :
  save_freq_to_eeprom f w
  = run (fun m => set_eeprom
                    (write_byte EEPROM_MAGIC_ADDR EEPROM_MAGIC
                       (write_word EEPROM_FREQ_ADDR f (eeprom m)))
                    (set_eeprom (write_word EEPROM_FREQ_ADDR f (eeprom m)) m))
        [EvEepromWriteWord EEPROM_FREQ_ADDR f;
         EvEepromWriteByte EEPROM_MAGIC_ADDR EEPROM_MAGIC] w.
Proof.
  unfold save_freq_to_eeprom, eeprom_write_byte, eeprom_write_word.
  rewrite !emit_run, !on_hw_run, !run_run. reflexivity.
Qed.

Lemma load_value (w : world) :
  fst (load_freq_from_eeprom w) = next_boot_freq (eeprom (hw w)).
Proof.
  unfold load_freq_from_eeprom, next_boot_freq, eeprom_read_byte,
    eeprom_read_word.
  destruct (Z.eqb_spec (read_byte (eeprom (hw w)) EEPROM_MAGIC_ADDR)
              EEPROM_MAGIC); simpl; [| reflexivity].
  destruct (Z.ltb_spec (read_word (eeprom (hw w)) EEPROM_FREQ_ADDR) 2400),
    (Z.ltb_spec 4500 (read_word (eeprom (hw w)) EEPROM_FREQ_ADDR)),
    (Z.leb_spec 2400 (read_word (eeprom (hw w)) EEPROM_FREQ_ADDR)),
    (Z.leb_spec (read_word (eeprom (hw w)) EEPROM_FREQ_ADDR) 4500);
    simpl; try reflexivity; lia.
Qed.

Lemma next_boot_freq_range (e : eeprom_mem) :
  2400 <= next_boot_freq e <= 4500.
Proof.
  unfold next_boot_freq, DEFAULT_FREQ.
  destruct (_ =? _); [| lia].
  destruct (Z.leb_spec 2400 (read_word e EEPROM_FREQ_ADDR)),
    (Z.leb_spec (read_word e EEPROM_FREQ_ADDR) 4500); simpl; lia.
Qed.

Lemma read_byte_cell_write (a v x : Z) (e : eeprom_mem) :
  read_byte (cell_write a v e) x = if x =? a then u8 v else read_byte e x.
Proof. unfold read_byte, cell_write. now destruct (x =? a). Qed.

Lemma word_roundtrip (f : Z) (e : eeprom_mem) :
  0 <= f < 65536 ->
  read_word (write_byte EEPROM_MAGIC_ADDR EEPROM_MAGIC
               (write_word EEPROM_FREQ_ADDR f e)) EEPROM_FREQ_ADDR = f.
Proof.
  intros Hf. unfold read_word, write_byte, write_word.
  rewrite !read_byte_cell_write.
  change (EEPROM_FREQ_ADDR =? EEPROM_MAGIC_ADDR) with false.
  change (EEPROM_FREQ_ADDR + 1 =? EEPROM_MAGIC_ADDR) with false.
  change (EEPROM_FREQ_ADDR =? EEPROM_FREQ_ADDR + 1) with false.
  rewrite !Z.eqb_refl. cbv iota.
  rewrite Z.shiftr_div_pow2 by lia.
  rewrite !u8_small by apply u8_range.
  unfold u8. change (2 ^ 8) with 256.
  assert (Hhi : (f / 256) mod 256 = f / 256).
  { apply Z.mod_small.
    split; [apply Z.div_pos; lia | apply Z.div_lt_upper_bound; lia]. }
  pose proof (Z.div_mod f 256 ltac:(lia)) as Hdm.
  rewrite Hhi. lia.
Qed.

Lemma marker_after_save (f : Z) (e : eeprom_mem) :
  read_byte (write_byte EEPROM_MAGIC_ADDR EEPROM_MAGIC
               (write_word EEPROM_FREQ_ADDR f e)) EEPROM_MAGIC_ADDR
  = EEPROM_MAGIC.
Proof. reflexivity. Qed.

Lemma next_boot_after_save (f : Z) (e : eeprom_mem) :
  2400 <= f <= 4500 ->
  next_boot_freq (write_byte EEPROM_MAGIC_ADDR EEPROM_MAGIC
                    (write_word EEPROM_FREQ_ADDR f e)) = f.
Proof.
  intros Hf. unfold next_boot_freq.
  rewrite marker_after_save, Z.eqb_refl, word_roundtrip by lia.
  destruct (Z.leb_spec 2400 f), (Z.leb_spec f 4500); simpl; lia.
Qed.

End FirmwareFacts.

(** ** Claims about the persistent frequency store *)

Lemma load_trace (w : world) :
  hw (snd (load_freq_from_eeprom w)) = hw w /\
  since w (snd (load_freq_from_eeprom w))
  = if read_byte (eeprom (hw w)) EEPROM_MAGIC_ADDR =? EEPROM_MAGIC
    then [EvEepromReadByte EEPROM_MAGIC_ADDR;
          EvEepromReadWord EEPROM_FREQ_ADDR]
    else [EvEepromReadByte EEPROM_MAGIC_ADDR].
Proof.
  unfold load_freq_from_eeprom, eeprom_read_byte, eeprom_read_word.
  destruct (read_byte (eeprom (hw w)) EEPROM_MAGIC_ADDR =? EEPROM_MAGIC).
  - cbn [negb]. rewrite !emit_run, run_run.
    destruct (_ || _); split; try reflexivity; apply since_run.
  - cbn [negb snd]. rewrite emit_run. split; [reflexivity | apply since_run].
Qed.

(** C1: with a marker other than 0xAB [load_freq_from_eeprom] returns 2500
    and reads nothing but the marker; with the marker in place it returns
    the stored word exactly when that word lies in [2400, 4500] and 2500
    otherwise; the result is always a frequency of [2400, 4500], and the
    hardware is left as it was. *)
Theorem load_freq_validated (w : world) :
  let e := eeprom (hw w) in
  let r := fst (load_freq_from_eeprom w) in
  let w' := snd (load_freq_from_eeprom w) in
  hw w' = hw w /\
  2400 <= r <= 4500 /\
  (read_byte e EEPROM_MAGIC_ADDR <> 0xAB ->
   r = 2500 /\ since w w' = [EvEepromReadByte EEPROM_MAGIC_ADDR]) /\
  (read_byte e EEPROM_MAGIC_ADDR = 0xAB ->
   since w w' = [EvEepromReadByte EEPROM_MAGIC_ADDR;
                 EvEepromReadWord EEPROM_FREQ_ADDR] /\
   (r = read_word e EEPROM_FREQ_ADDR <->
    2400 <= read_word e EEPROM_FREQ_ADDR <= 4500) /\
   (~ 2400 <= read_word e EEPROM_FREQ_ADDR <= 4500 -> r = 2500)).
Proof.
  intros e r w'. subst r w'.
  destruct (load_trace w) as [Hhw Htr].
  rewrite load_value. fold e in Htr |- *.
  pose proof (next_boot_freq_range e) as Hrange.
  split; [exact Hhw |]. split; [exact Hrange |].
  unfold next_boot_freq in *. change EEPROM_MAGIC with 0xAB in *.
  destruct (Z.eqb_spec (read_byte e EEPROM_MAGIC_ADDR) 0xAB) as [Hm | Hm].
  - split; [intros Hne; contradiction |]. intros _.
    split; [exact Htr |].
    destruct (Z.leb_spec 2400 (read_word e EEPROM_FREQ_ADDR)),
      (Z.leb_spec (read_word e EEPROM_FREQ_ADDR) 4500);
      cbn [andb]; unfold DEFAULT_FREQ; repeat split; intros; lia.
  - split; [intros _; split; [reflexivity | exact Htr] |].
    intros Heq. contradiction.
Qed.

(** A valid marker over a stored 5000 gives the default. *)
Lemma load_freq_validated_witness :
  read_byte (eeprom mcu_corrupted) EEPROM_MAGIC_ADDR = 0xAB /\
  read_word (eeprom mcu_corrupted) EEPROM_FREQ_ADDR = 5000 /\
  fst (load_freq_from_eeprom (World mcu_corrupted [] (fun _ => 0xFF) O))
  = 2500.
Proof.
  split; [reflexivity |]. split; [reflexivity |].
  pose proof (load_freq_validated (World mcu_corrupted [] (fun _ => 0xFF) O))
    as H.
  cbv zeta in H. destruct H as (_ & _ & _ & H).
  destruct (H eq_refl) as (_ & _ & Hdefault).
  apply Hdefault. cbn [hw eeprom]. vm_compute. intros [_ Hle]. apply Hle.
  reflexivity.
Defined.

Lemma eeprom_after_save (f : Z) (w : world) :
  eeprom (hw (save_freq_to_eeprom f w))
  = write_byte EEPROM_MAGIC_ADDR EEPROM_MAGIC
      (write_word EEPROM_FREQ_ADDR f (eeprom (hw w))).
Proof. now rewrite save_run. Qed.

(** C2: a frequency of [2400, 4500] saved is the frequency loaded; after
    saving 2500 and then 2600 the load gives 2600; and storage whose marker
    is not 0xAB loads as 2500. *)
Theorem save_load_roundtrip (f : Z) (w : world) :
  2400 <= f <= 4500 ->
  fst (load_freq_from_eeprom (save_freq_to_eeprom f w)) = f /\
  fst (load_freq_from_eeprom
         (save_freq_to_eeprom 2600 (save_freq_to_eeprom 2500 w))) = 2600 /\
  (read_byte (eeprom (hw w)) EEPROM_MAGIC_ADDR <> 0xAB ->
   fst (load_freq_from_eeprom w) = 2500).
Proof.
  intros Hf. split; [| split].
  - rewrite load_value, eeprom_after_save. now apply next_boot_after_save.
  - rewrite load_value, eeprom_after_save. apply next_boot_after_save. lia.
  - intros Hm. rewrite load_value. unfold next_boot_freq.
    change EEPROM_MAGIC with 0xAB.
    destruct (Z.eqb_spec (read_byte (eeprom (hw w)) EEPROM_MAGIC_ADDR) 0xAB);
      [contradiction | reflexivity].
Qed.

Lemma save_load_roundtrip_witness :
  2400 <= 2700 <= 4500 /\
  fst (load_freq_from_eeprom (save_freq_to_eeprom 2700 world_reset)) = 2700 /\
  fst (load_freq_from_eeprom world_reset) = 2500.
Proof.
  split; [lia |].
  destruct (save_load_roundtrip 2700 world_reset ltac:(lia))
    as (Hrt & _ & Hfresh).
  split; [exact Hrt |]. apply Hfresh. vm_compute. discriminate.
Defined.

(** C7: [save_freq_to_eeprom f] makes exactly two writes, in this order:
    the 16-bit word [f] at offset 0, then the marker 0xAB at offset 2;
    cells 0 and 1 receive the low and high byte of [f], cell 2 the marker,
    and nothing else changes, neither in the EEPROM nor elsewhere. *)
Theorem save_two_writes (f : Z) (w : world) :
  let w' := save_freq_to_eeprom f w in
  since w w' = [EvEepromWriteWord 0 f; EvEepromWriteByte 2 0xAB] /\
  (forall a, eeprom (hw w') a
             = if a =? 0 then u8 f
               else if a =? 1 then u8 (Z.shiftr f 8)
               else if a =? 2 then 0xAB
               else eeprom (hw w) a) /\
  hw w' = set_eeprom (eeprom (hw w')) (hw w) /\
  line w' = line w /\ reads w' = reads w.
Proof.
  intros w'. subst w'. rewrite save_run. split; [apply since_run |].
  split; [| repeat split].
  intros a. cbn [hw run eeprom set_eeprom].
  unfold write_byte, write_word, cell_write.
  change EEPROM_MAGIC_ADDR with 2. change (EEPROM_FREQ_ADDR + 1) with 1.
  change EEPROM_FREQ_ADDR with 0.
  destruct (Z.eqb_spec a 0) as [-> | H0]; [reflexivity |].
  destruct (Z.eqb_spec a 1) as [-> | H1]; [reflexivity |].
  destruct (Z.eqb_spec a 2) as [-> | H2]; reflexivity.
Qed.

(** ** Claims about the waits *)

Lemma wdt_guarded_blocks (n : nat) (rest : list event) :
  wdt_guarded (blocks n ++ rest) = wdt_guarded rest.
Proof. induction n as [| n IH]; simpl; auto. Qed.

Lemma elapsed_us_app (a b : list event) :
  elapsed_us (a ++ b) = elapsed_us a + elapsed_us b.
Proof.
  induction a as [| ev a IH]; [reflexivity |].
  destruct ev; cbn [elapsed_us app]; rewrite ?IH; lia.
Qed.

Lemma elapsed_us_blocks (n : nat) : elapsed_us (blocks n) = 10000 * Z.of_nat n.
Proof.
  induction n as [| n IH]; [reflexivity |].
  cbn [blocks elapsed_us]. rewrite IH. lia.
Qed.

Lemma wdt_resets_app (a b : list event) :
  (wdt_resets (a ++ b) = wdt_resets a + wdt_resets b)%nat.
Proof.
  induction a as [| ev a IH]; [reflexivity |].
  destruct ev; cbn [wdt_resets app]; rewrite ?IH; reflexivity.
Qed.

Section WaitClaims.

Variable clk : cpu_clock.

Lemma pause_run (d : Z) (w : world) :
  d < 65536 -> pause d w = run (fun m => m) (blocks (Z.to_nat (d / 10))) w.
Proof.
  intros Hd. destruct (pause_blocks d w) as (n & Hn & Hcount).
  now rewrite <- Hcount.
Qed.

Lemma beep_run (f d : Z) (w : world) :
  d < 65536 ->
  beep clk f d w
  = run (fun m => tone_stop (tone_start clk f m))
        (EvToneStart f :: blocks (Z.to_nat (d / 10)) ++ [EvToneStop]) w.
Proof.
  intros Hd. destruct (beep_blocks clk f d w) as (n & Hn & Hcount).
  now rewrite <- Hcount.
Qed.

(** *** The polling loop *)

Lemma land_signal_bit (v : Z) :
  (Z.land (u8 v) (Z.shiftl 1 SIGNAL_PIN) =? 0) = negb (Z.testbit v SIGNAL_PIN).
Proof.
  assert (Hbit : Z.testbit (u8 v) 1 = Z.testbit v 1).
  { rewrite u8_land, Z.land_spec. change (Z.testbit 255 1) with true.
    apply andb_true_r. }
  assert (Hland : Z.land (u8 v) 2 = if Z.testbit (u8 v) 1 then 2 else 0).
  { apply Z.bits_inj'. intros n Hn. rewrite Z.land_spec.
    change 2 with (2 ^ 1) at 1. rewrite Z.pow2_bits_eqb by lia.
    destruct (Z.eqb_spec 1 n) as [<- | Hne].
    - rewrite andb_true_r. now destruct (Z.testbit (u8 v) 1).
    - rewrite andb_false_r. destruct (Z.testbit (u8 v) 1).
      + change 2 with (2 ^ 1). rewrite Z.pow2_bits_false; [reflexivity | lia].
      + now rewrite Z.bits_0. }
  change (Z.shiftl 1 SIGNAL_PIN) with 2. change SIGNAL_PIN with 1.
  rewrite Hland, Hbit. now destruct (Z.testbit v 1).
Qed.

Lemma fc_wants_sound_spec (w : world) :
  fc_wants_sound w = (line_asserted w, polled w).
Proof.
  unfold fc_wants_sound, read_PINB, line_asserted, polled.
  now rewrite land_signal_bit.
Qed.

(** One pass of the polling loop in normal form: the new [sound_on] is the
    request just sampled, and the tone generator is called only when that
    differs from the old one. *)
Lemma main_loop_body_spec (sound_on : bool) (w : world) :
  main_loop_body clk (sound_on, w)
  = (line_asserted w,
     if line_asserted w then
       if sound_on then
         run (fun m => m) [EvWdtReset; EvDelayUs 100] (polled w)
       else
         run (tone_start clk (current_freq (hw w)))
             [EvToneStart (current_freq (hw w)); EvWdtReset; EvDelayUs 100]
             (polled w)
     else
       if sound_on then
         run tone_stop [EvToneStop; EvWdtReset; EvDelayUs 100] (polled w)
       else
         run (fun m => m) [EvWdtReset; EvDelayUs 100] (polled w)).
Proof.
  unfold main_loop_body. rewrite fc_wants_sound_spec.
  unfold call_tone_start, call_tone_stop, wdt_reset, _delay_us.
  destruct (line_asserted w), sound_on; cbn [negb];
    rewrite ?emit_run, ?on_hw_run, ?run_run; reflexivity.
Qed.

Lemma since_polled_run (H : mcu -> mcu) (evs : list event) (w : world) :
  since w (run H evs (polled w)) = evs.
Proof. now apply since_app. Qed.

Lemma main_loop_body_resets (st : bool * world) :
  wdt_resets (since (snd st) (snd (main_loop_body clk st))) = 1%nat.
Proof.
  destruct st as [so w]. rewrite main_loop_body_spec. cbn [snd].
  destruct (line_asserted w), so; now rewrite since_polled_run.
Qed.

Lemma main_loop_body_extends (st : bool * world) :
  exists evs, trace (snd (main_loop_body clk st)) = trace (snd st) ++ evs /\
              wdt_resets evs = 1%nat.
Proof.
  destruct st as [so w]. rewrite main_loop_body_spec. cbn [snd].
  destruct (line_asserted w), so; eexists; split; reflexivity.
Qed.

Lemma while_forever {S : Type} (fuel : nat) (body : S -> S) (s : S) :
  while_loop fuel (fun _ => c_true 1) body s = Running (Nat.iter fuel body s).
Proof.
  revert s. induction fuel as [| k IH]; intros s; [reflexivity |].
  cbn [while_loop]. change (c_true 1) with true. cbv iota.
  rewrite IH. now rewrite Nat.iter_succ_r.
Qed.

Lemma polling_resets (n : nat) (st : bool * world) :
  exists evs,
    trace (snd (Nat.iter n (main_loop_body clk) st)) = trace (snd st) ++ evs /\
    wdt_resets evs = n.
Proof.
  induction n as [| n (evs & Htr & Hcount)].
  - exists []. split; [symmetry; apply app_nil_r | reflexivity].
  - change (Nat.iter (S n) (main_loop_body clk) st)
      with (main_loop_body clk (Nat.iter n (main_loop_body clk) st)).
    destruct (main_loop_body_extends (Nat.iter n (main_loop_body clk) st))
      as (evs' & Htr' & Hcount').
    exists (evs ++ evs'). split.
    + now rewrite Htr', Htr, app_assoc.
    + rewrite wdt_resets_app, Hcount, Hcount'. lia.
Qed.

(** C9: every pass of the polling loop resets the watchdog once (so [n]
    passes of the loop, which never exits, log [n] resets); and the waits of
    [pause] and [beep] consist of 10 ms sub-delays only, each directly
    followed by a watchdog reset. *)
Theorem watchdog_reasserted (f d : Z) (w : world) (n : nat)
  (st : bool * world) :
  wdt_resets (since (snd st) (snd (main_loop_body clk st))) = 1%nat /\
  (exists st',
     while_loop n (fun _ => c_true 1) (main_loop_body clk) st = Running st' /\
     wdt_resets (since (snd st) (snd st')) = n) /\
  (exists k, since w (pause d w) = blocks k) /\
  (exists k, since w (beep clk f d w)
             = EvToneStart f :: blocks k ++ [EvToneStop]) /\
  wdt_guarded (since w (pause d w)) = true /\
  wdt_guarded (since w (beep clk f d w)) = true.
Proof.
  destruct (pause_blocks d w) as (kp & Hp & _).
  destruct (beep_blocks clk f d w) as (kb & Hb & _).
  rewrite Hp, Hb, !since_run.
  split; [apply main_loop_body_resets |]. split.
  - exists (Nat.iter n (main_loop_body clk) st).
    split; [apply while_forever |].
    destruct (polling_resets n st) as (evs & Htr & Hcount).
    now rewrite (since_app _ _ evs Htr).
  - split; [now exists kp |]. split; [now exists kb |]. split.
    + rewrite <- (app_nil_r (blocks kp)). apply wdt_guarded_blocks.
    + cbn [wdt_guarded]. apply wdt_guarded_blocks.
Qed.

(** C10: for a 16-bit [duration_ms] the wait of [pause] and of [beep]
    lasts [10 * (duration_ms / 10)] milliseconds; below 10 there is no wait
    at all: [pause] returns the world it was given and [beep] starts the
    tone and stops it at once. *)
Theorem wait_rounds_down (f duration_ms : Z) (w : world) :
  0 <= duration_ms < 65536 ->
  elapsed_us (since w (pause duration_ms w))
  = 1000 * (10 * (duration_ms / 10)) /\
  elapsed_us (since w (beep clk f duration_ms w))
  = 1000 * (10 * (duration_ms / 10)) /\
  (duration_ms < 10 ->
   pause duration_ms w = w /\
   since w (beep clk f duration_ms w) = [EvToneStart f; EvToneStop] /\
   hw (beep clk f duration_ms w) = tone_stop (tone_start clk f (hw w))).
Proof.
  intros Hd.
  assert (Hq : 0 <= duration_ms / 10) by (apply Z.div_pos; lia).
  rewrite pause_run, beep_run, !since_run by lia.
  split; [| split].
  - rewrite elapsed_us_blocks, Z2Nat.id by assumption. lia.
  - cbn [elapsed_us]. rewrite elapsed_us_app, elapsed_us_blocks.
    rewrite Z2Nat.id by assumption. cbn [elapsed_us]. lia.
  - intros Hshort. rewrite Z.div_small by lia. cbn [Z.to_nat blocks app].
    repeat split. apply run_id_nil.
Qed.

End WaitClaims.

Lemma wait_rounds_down_witness :
  0 <= 1234 < 65536 /\
  elapsed_us (since world_reset (pause 1234 world_reset)) = 1230000 /\
  elapsed_us (since world_reset (beep Clk_9M6 2500 1234 world_reset)) = 1230000.
Proof.
  split; [lia |].
  destruct (wait_rounds_down Clk_9M6 2500 1234 world_reset ltac:(lia))
    as (Hp & Hb & _).
  split; [exact Hp | exact Hb].
Defined.


(** ** Claims about the relay *)

Lemma line_asserted_low (w : world) :
  pin_low (line w (reads w)) -> line_asserted w = true.
Proof. unfold pin_low, line_asserted. now intros ->. Qed.

Lemma line_asserted_high (w : world) :
  pin_high (line w (reads w)) -> line_asserted w = false.
Proof. unfold pin_high, line_asserted. now intros ->. Qed.

(** C5, as the code has it: the input is active low.  From SILENT, three
    consecutive polls that see the pin HIGH, LOW, HIGH leave the relay
    SILENT, then SOUNDING, then SILENT, with exactly one call of
    [tone_start], at [current_freq], and exactly one call of [tone_stop];
    what happens to the line between the polls plays no part.  A poll whose
    sample agrees with the state calls neither and leaves the hardware
    untouched. *)
Theorem relay_pulse (clk : cpu_clock) (w : world) :
  pin_high (line w (reads w)) ->
  pin_low (line w (S (reads w))) ->
  pin_high (line w (S (S (reads w)))) ->
  let st1 := main_loop_body clk (false, w) in
  let st2 := main_loop_body clk st1 in
  let st3 := main_loop_body clk st2 in
  relay_of (fst st1) = SILENT /\
  relay_of (fst st2) = SOUNDING /\
  relay_of (fst st3) = SILENT /\
  since w (snd st3)
  = [EvWdtReset; EvDelayUs 100;
     EvToneStart (current_freq (hw w)); EvWdtReset; EvDelayUs 100;
     EvToneStop; EvWdtReset; EvDelayUs 100] /\
  tone_starts (since w (snd st3)) = 1%nat /\
  tone_stops (since w (snd st3)) = 1%nat /\
  (forall sound_on w0,
     line_asserted w0 = sound_on ->
     main_loop_body clk (sound_on, w0)
     = (sound_on, run (fun m => m) [EvWdtReset; EvDelayUs 100] (polled w0))).
Proof.
  intros H1 H2 H3 st1 st2 st3.
  assert (E1 : st1 = (false, run (fun m => m) [EvWdtReset; EvDelayUs 100]
                               (polled w))).
  { subst st1. rewrite main_loop_body_spec.
    now rewrite (line_asserted_high w H1). }
  assert (E2 : st2 = (true,
             run (tone_start clk (current_freq (hw w)))
                 [EvWdtReset; EvDelayUs 100;
                  EvToneStart (current_freq (hw w)); EvWdtReset; EvDelayUs 100]
                 (polled (polled w)))).
  { subst st2. rewrite E1, main_loop_body_spec.
    rewrite line_asserted_low by exact H2.
    unfold run, polled. cbn [hw trace line reads]. now rewrite <- app_assoc. }
  assert (E3 : st3 = (false,
             run (fun m => tone_stop (tone_start clk (current_freq (hw w)) m))
                 [EvWdtReset; EvDelayUs 100;
                  EvToneStart (current_freq (hw w)); EvWdtReset; EvDelayUs 100;
                  EvToneStop; EvWdtReset; EvDelayUs 100]
                 (polled (polled (polled w))))).
  { subst st3. rewrite E2, main_loop_body_spec.
    rewrite line_asserted_high by exact H3.
    unfold run, polled. cbn [hw trace line reads]. now rewrite <- app_assoc. }
  rewrite E1, E2, E3. cbn [fst snd relay_of].
  assert (Hs : forall H evs, since w (run H evs (polled (polled (polled w))))
                             = evs) by (intros; now apply since_app).
  rewrite Hs. repeat split.
  intros sound_on w0 <-. rewrite main_loop_body_spec.
  now destruct (line_asserted w0).
Qed.

Lemma relay_pulse_witness :
  pin_high (line world_high_low_high 0) /\
  pin_low (line world_high_low_high 1) /\
  pin_high (line world_high_low_high 2) /\
  let st3 :=
    main_loop_body Clk_1M2
      (main_loop_body Clk_1M2
         (main_loop_body Clk_1M2 (false, world_high_low_high))) in
  relay_of (fst st3) = SILENT /\
  tone_starts (since world_high_low_high (snd st3)) = 1%nat /\
  tone_stops (since world_high_low_high (snd st3)) = 1%nat.
Proof.
  split; [reflexivity |]. split; [reflexivity |]. split; [reflexivity |].
  pose proof (relay_pulse Clk_1M2 world_high_low_high
                eq_refl eq_refl eq_refl) as H.
  cbv zeta in H. destruct H as (_ & _ & Hsilent & _ & Hstart & Hstop & _).
  cbv zeta. split; [exact Hsilent |]. split; [exact Hstart | exact Hstop].
Defined.

(** With the pin LOW, HIGH, LOW the relay goes SOUNDING, SILENT, SOUNDING:
    two calls of [tone_start] and one of [tone_stop]. *)
Lemma relay_low_high_low (clk : cpu_clock) (w : world) :
  pin_low (line w (reads w)) ->
  pin_high (line w (S (reads w))) ->
  pin_low (line w (S (S (reads w)))) ->
  let st1 := main_loop_body clk (false, w) in
  let st2 := main_loop_body clk st1 in
  let st3 := main_loop_body clk st2 in
  relay_of (fst st1) = SOUNDING /\
  relay_of (fst st2) = SILENT /\
  relay_of (fst st3) = SOUNDING /\
  tone_starts (since w (snd st3)) = 2%nat /\
  tone_stops (since w (snd st3)) = 1%nat.
Proof.
  intros H1 H2 H3 st1 st2 st3.
  assert (E1 : st1 = (true,
             run (tone_start clk (current_freq (hw w)))
                 [EvToneStart (current_freq (hw w)); EvWdtReset; EvDelayUs 100]
                 (polled w))).
  { subst st1. rewrite main_loop_body_spec.
    now rewrite (line_asserted_low w H1). }
  assert (E2 : exists m2, st2 = (false,
             World m2
                 (trace w ++
                  [EvToneStart (current_freq (hw w)); EvWdtReset; EvDelayUs 100;
                   EvToneStop; EvWdtReset; EvDelayUs 100])
                 (line w) (S (S (reads w))))).
  { subst st2. rewrite E1, main_loop_body_spec.
    rewrite line_asserted_high by exact H2.
    unfold run, polled. cbn [hw trace line reads]. rewrite <- app_assoc.
    eexists. reflexivity. }
  destruct E2 as (m2 & E2).
  assert (E3 : exists m3, st3 = (true,
             World m3
                 (trace w ++
                  [EvToneStart (current_freq (hw w)); EvWdtReset; EvDelayUs 100;
                   EvToneStop; EvWdtReset; EvDelayUs 100;
                   EvToneStart (current_freq m2); EvWdtReset; EvDelayUs 100])
                 (line w) (S (S (S (reads w)))))).
  { subst st3. rewrite E2, main_loop_body_spec.
    rewrite line_asserted_low by exact H3.
    unfold run, polled. cbn [hw trace line reads]. rewrite <- app_assoc.
    eexists. reflexivity. }
  destruct E3 as (m3 & E3).
  rewrite E1, E2, E3. cbn [fst snd relay_of].
  erewrite since_app by reflexivity. repeat split.
Qed.

(** C5 as stated fails: the pin LOW, HIGH, LOW makes the relay start the
    tone twice and leaves it SOUNDING. *)
Lemma relay_low_high_low_counterexample :
  pin_low (line world_low_high_low 0) /\
  pin_high (line world_low_high_low 1) /\
  pin_low (line world_low_high_low 2) /\
  (let st3 :=
     main_loop_body Clk_1M2
       (main_loop_body Clk_1M2
          (main_loop_body Clk_1M2 (false, world_low_high_low))) in
   relay_of (fst st3) = SOUNDING /\
   tone_starts (since world_low_high_low (snd st3)) = 2%nat) /\
  ~ relay_low_high_low_claim Clk_1M2 world_low_high_low.
Proof.
  split; [reflexivity |]. split; [reflexivity |]. split; [reflexivity |].
  destruct (relay_low_high_low Clk_1M2 world_low_high_low
              eq_refl eq_refl eq_refl) as (_ & _ & Hsounding & Hstarts & _).
  cbv zeta in Hsounding, Hstarts.
  split; [split; [exact Hsounding | exact Hstarts] |].
  intros Hclaim.
  destruct (Hclaim eq_refl eq_refl eq_refl) as (Hsilent & _).
  rewrite Hsilent in Hsounding. discriminate.
Qed.

(** ** Claims about the calibration sweep *)

Section SweepClaims.

Variable clk : cpu_clock.

Lemma sweep_from_step (f : Z) (w : world) :
  f <= FREQ_MAX ->
  sweep_from clk f w
  = sweep_from clk (u16 (f + FREQ_STEP))
      (pause CALIB_PAUSE_MS
         (beep clk f CALIB_TONE_MS
            (on_hw (set_current_freq f) (save_freq_to_eeprom f w)))).
Proof. intros Hf. funelim (sweep_from clk f w); [reflexivity | lia]. Qed.

Lemma sweep_from_exit (f : Z) (w : world) :
  FREQ_MAX < f -> sweep_from clk f w = w.
Proof. intros Hf. funelim (sweep_from clk f w); [lia | reflexivity]. Qed.

Lemma sweep_step_run (f : Z) (w : world) :
  pause CALIB_PAUSE_MS
    (beep clk f CALIB_TONE_MS
       (on_hw (set_current_freq f) (save_freq_to_eeprom f w)))
  = run (step_hw clk f) (step_events f) w.
Proof.
  rewrite pause_run, beep_run, save_run, on_hw_run, !run_run
    by (unfold CALIB_PAUSE_MS, CALIB_TONE_MS; lia).
  reflexivity.
Qed.

Lemma sweep_from_run (w : world) :
  sweep_from clk FREQ_MIN w
  = run (sweep_hw clk) (flat_map step_events candidates) w.
Proof.
  unfold FREQ_MIN.
  do 7 (rewrite sweep_from_step by (unfold FREQ_MAX; lia);
        rewrite sweep_step_run;
        match goal with
        | |- context [u16 (?f + FREQ_STEP)] =>
            let v := eval vm_compute in (u16 (f + FREQ_STEP)) in
            change (u16 (f + FREQ_STEP)) with v
        end).
  rewrite sweep_from_exit by (unfold FREQ_MAX; lia).
  rewrite !run_run. unfold candidates. cbn [flat_map].
  rewrite app_nil_r, <- ?app_assoc. reflexivity.
Qed.

Lemma sweep_body_run (w : world) :
  sweep_body clk w = run (sweep_hw clk) sweep_events w.
Proof.
  unfold sweep_body. rewrite sweep_from_run, pause_run, run_run by lia.
  reflexivity.
Qed.

Lemma intro_run (w : world) :
  pause 500
    (beep clk DEFAULT_FREQ BEEP_LONG_MS
       (pause PAUSE_LONG_MS (beep clk DEFAULT_FREQ BEEP_LONG_MS w)))
  = run (intro_hw clk) intro_events w.
Proof.
  rewrite !pause_run, !beep_run, !run_run
    by (unfold PAUSE_LONG_MS, BEEP_LONG_MS; lia).
  unfold intro_events. rewrite <- ?app_assoc. reflexivity.
Qed.

Lemma sweeps_run (n : nat) (w : world) :
  Nat.iter n (sweep_body clk) w
  = run (fun m => Nat.iter n (sweep_hw clk) m)
        (repeat_events n sweep_events) w.
Proof.
  revert w. induction n as [| n IH]; intros w.
  - symmetry. apply run_id_nil.
  - rewrite Nat.iter_succ_r, IH, sweep_body_run, run_run.
    cbn [repeat_events]. unfold run. f_equal.
    now rewrite Nat.iter_succ_r.
Qed.

Lemma auto_sweep_mode_run (fuel : nat) (w : world) :
  auto_sweep_mode clk fuel w
  = Running (run (fun m => Nat.iter fuel (sweep_hw clk) (intro_hw clk m))
                 (intro_events ++ repeat_events fuel sweep_events) w).
Proof.
  unfold auto_sweep_mode. rewrite intro_run, while_forever, sweeps_run, run_run.
  reflexivity.
Qed.

(** *** The observer *)

Lemma replay_app (o : obs) (a b : list event) :
  replay o (a ++ b) = replay (replay o a) b.
Proof. apply fold_left_app. Qed.

Lemma calib_check_app (o : obs) (a b : list event) :
  calib_check o (a ++ b) = calib_check o a && calib_check (replay o a) b.
Proof.
  revert o. induction a as [| ev a IH]; intros o; [reflexivity |].
  cbn [app calib_check]. rewrite IH, andb_assoc. reflexivity.
Qed.

Lemma calib_check_at (o : obs) (p q : list event) (ev : event) :
  calib_check o (p ++ ev :: q) = true -> obs_ok_at (replay o p) ev = true.
Proof.
  rewrite calib_check_app. cbn [calib_check].
  intros H. apply andb_prop in H as [_ H]. now apply andb_prop in H as [H _].
Qed.

Lemma calib_check_sound (o : obs) (tr : list event) :
  calib_check o tr = true ->
  saved_before_played o tr /\ persisted_is_heard o tr.
Proof.
  intros Hc. split.
  - intros p f q ->. apply calib_check_at in Hc. now apply Z.eqb_eq in Hc.
  - intros p ms q ->. apply calib_check_at in Hc. cbn [obs_ok_at] in Hc.
    destruct (ob_heard (replay o p)) as [h |]; [| discriminate].
    apply Z.eqb_eq in Hc. now rewrite Hc.
Qed.

Lemma settled_blocks (o : obs) (f : Z) (n : nat) :
  settled o f -> calib_check o (blocks n) = true /\ replay o (blocks n) = o.
Proof.
  intros [Hh Hp]. induction n as [| n [IHc IHr]]; [now split |].
  cbn [blocks calib_check obs_ok_at observe]. rewrite Hh, Hp, Z.eqb_refl.
  split; [exact IHc | exact IHr].
Qed.

Lemma step_events_ok (o : obs) (f : Z) :
  2400 <= f <= 4500 ->
  calib_check o (step_events f) = true /\
  settled (replay o (step_events f)) f /\
  ob_eeprom (replay o (step_events f))
  = write_byte EEPROM_MAGIC_ADDR EEPROM_MAGIC
      (write_word EEPROM_FREQ_ADDR f (ob_eeprom o)).
Proof.
  intros Hf.
  set (o3 := Obs (write_byte EEPROM_MAGIC_ADDR EEPROM_MAGIC
                    (write_word EEPROM_FREQ_ADDR f (ob_eeprom o))) (Some f)).
  assert (Hs : settled o3 f).
  { split; [reflexivity |]. now apply next_boot_after_save. }
  destruct (settled_blocks o3 f 150 Hs) as [Hc1 Hr1].
  destruct (settled_blocks o3 f 50 Hs) as [Hc2 Hr2].
  assert (Hreplay : replay o (step_events f) = o3).
  { unfold step_events. rewrite replay_app.
    change (replay o [EvEepromWriteWord EEPROM_FREQ_ADDR f;
                      EvEepromWriteByte EEPROM_MAGIC_ADDR EEPROM_MAGIC;
                      EvToneStart f]) with o3.
    rewrite replay_app, Hr1, replay_app.
    change (replay o3 [EvToneStop]) with o3. exact Hr2. }
  split; [| rewrite Hreplay; split; [exact Hs | reflexivity]].
  unfold step_events. cbn [app calib_check obs_ok_at observe ob_eeprom].
  change (Obs (write_byte EEPROM_MAGIC_ADDR EEPROM_MAGIC
                 (write_word EEPROM_FREQ_ADDR f (ob_eeprom o)))
              (Some f)) with o3.
  rewrite (next_boot_after_save f (ob_eeprom o) Hf), Z.eqb_refl.
  rewrite calib_check_app, Hc1, Hr1. cbn [app calib_check obs_ok_at observe].
  exact Hc2.
Qed.

Lemma sweep_events_ok (o : obs) :
  calib_check o sweep_events = true /\
  settled (replay o sweep_events) FREQ_MAX /\
  ob_eeprom (replay o sweep_events)
  = fold_left (fun e f => write_byte EEPROM_MAGIC_ADDR EEPROM_MAGIC
                            (write_word EEPROM_FREQ_ADDR f e))
      candidates (ob_eeprom o).
Proof.
  unfold sweep_events, candidates. cbn [flat_map fold_left].
  rewrite app_nil_r, <- !app_assoc.
  repeat (rewrite calib_check_app, replay_app;
          match goal with
          | |- context [replay ?o' (step_events ?f)] =>
              let Hc := fresh "Hc" in
              let Hs := fresh "Hs" in
              let He := fresh "He" in
              destruct (step_events_ok o' f ltac:(lia)) as (Hc & Hs & He);
              rewrite Hc; cbn [andb];
              generalize dependent (replay o' (step_events f)); intros
          end).
  match goal with
  | Hlast : settled ?o' 3000 |- _ =>
      destruct (settled_blocks o' 3000 100 Hlast) as [Hcb Hrb];
      rewrite Hcb, Hrb
  end.
  split; [reflexivity |]. split; [assumption |]. congruence.
Qed.

Lemma sweeps_ok (n : nat) (o : obs) :
  calib_check o (repeat_events n sweep_events) = true.
Proof.
  revert o. induction n as [| n IH]; intros o; [reflexivity |].
  cbn [repeat_events]. rewrite calib_check_app, IH.
  now destruct (sweep_events_ok o) as [-> _].
Qed.

(** *** The log agrees with the store *)

Lemma eeprom_tone_start (f : Z) (m : mcu) :
  eeprom (tone_start clk f m) = eeprom m.
Proof. unfold tone_start. now destruct (f =? 0). Qed.

Lemma eeprom_step_hw (f : Z) (m : mcu) :
  eeprom (step_hw clk f m)
  = write_byte EEPROM_MAGIC_ADDR EEPROM_MAGIC
      (write_word EEPROM_FREQ_ADDR f (eeprom m)).
Proof.
  unfold step_hw, tone_stop. cbn [eeprom set_PORTB set_TCCR0A set_TCCR0B
                                   set_TIMSK0].
  now rewrite eeprom_tone_start.
Qed.

Lemma eeprom_sweep_hw (m : mcu) :
  eeprom (sweep_hw clk m)
  = fold_left (fun e f => write_byte EEPROM_MAGIC_ADDR EEPROM_MAGIC
                            (write_word EEPROM_FREQ_ADDR f e))
      candidates (eeprom m).
Proof.
  unfold sweep_hw, candidates. cbn [fold_left].
  now rewrite !eeprom_step_hw.
Qed.

Lemma eeprom_intro_hw (m : mcu) : eeprom (intro_hw clk m) = eeprom m.
Proof.
  unfold intro_hw, tone_stop.
  cbn [eeprom set_PORTB set_TCCR0A set_TCCR0B set_TIMSK0].
  rewrite eeprom_tone_start.
  cbn [eeprom set_PORTB set_TCCR0A set_TCCR0B set_TIMSK0].
  apply eeprom_tone_start.
Qed.

Lemma replay_intro (o : obs) :
  replay o intro_events = Obs (ob_eeprom o) (Some DEFAULT_FREQ).
Proof.
  reflexivity.
Qed.

Lemma sweeps_agree (n : nat) (m : mcu) (o : obs) :
  ob_eeprom o = eeprom m ->
  ob_eeprom (replay o (repeat_events n sweep_events))
  = eeprom (Nat.iter n (sweep_hw clk) m).
Proof.
  revert m o. induction n as [| n IH]; intros m o Ho; [exact Ho |].
  cbn [repeat_events]. rewrite replay_app, Nat.iter_succ_r.
  apply IH. destruct (sweep_events_ok o) as (_ & _ & ->).
  now rewrite eeprom_sweep_hw, Ho.
Qed.

(** C6, as the code has it: [auto_sweep_mode] never returns, whatever the
    number of iterations granted; after the two confirmation beeps its log
    is one sweep after the other, each sweep visiting 2400, 2500, ..., 3000
    and logging for each candidate the save of that candidate directly
    before the start of its tone.  Hence, in the sweep loop, the frequency
    of every tone started is the persisted one, and during every tone and
    every pause the persisted frequency is the one heard last.  (The
    confirmation beeps are outside this: they sound at [DEFAULT_FREQ] over
    whatever was stored before.) *)
Theorem calibration_sweep (fuel : nat) (w : world) :
  exists w',
    auto_sweep_mode clk fuel w = Running w' /\
    since w w' = intro_events ++ repeat_events fuel sweep_events /\
    sweep_events = flat_map step_events candidates ++ blocks 100 /\
    (forall f, exists rest,
       step_events f
       = EvEepromWriteWord 0 f :: EvEepromWriteByte 2 0xAB
         :: EvToneStart f :: rest) /\
    played sweep_events = candidates /\
    candidates
    = map (fun k => FREQ_MIN + FREQ_STEP * Z.of_nat k) (seq 0 7) /\
    FREQ_MIN + FREQ_STEP * 6 = FREQ_MAX /\
    eeprom (hw w')
    = ob_eeprom (replay (Obs (eeprom (hw w)) None) (since w w')) /\
    saved_before_played (replay (Obs (eeprom (hw w)) None) intro_events)
      (repeat_events fuel sweep_events) /\
    persisted_is_heard (replay (Obs (eeprom (hw w)) None) intro_events)
      (repeat_events fuel sweep_events).
Proof.
  eexists. split; [apply auto_sweep_mode_run |].
  rewrite since_run.
  split; [reflexivity |]. split; [reflexivity |].
  split; [intros f; eexists; reflexivity |].
  split; [reflexivity |]. split; [reflexivity |]. split; [reflexivity |].
  split.
  - rewrite hw_run, replay_app, replay_intro. symmetry.
    apply sweeps_agree. cbn [ob_eeprom]. symmetry. apply eeprom_intro_hw.
  - apply calib_check_sound, sweeps_ok.
Qed.

End SweepClaims.

(** C6 as stated fails: during the first confirmation beep a machine
    calibrated to 2700 Hz sounds 2500 Hz while 2700 Hz is what the next
    boot would load. *)
Lemma calibration_claim_counterexample :
  next_boot_freq (eeprom (hw world_calibrated_2700)) = 2700 /\
  ~ calibration_claim Clk_1M2 1 world_calibrated_2700.
Proof.
  split; [reflexivity |].
  intros (w' & Hrun & Hinv).
  rewrite auto_sweep_mode_run in Hrun. injection Hrun as <-.
  rewrite since_run in Hinv.
  specialize (Hinv [EvToneStart DEFAULT_FREQ] 10
                (tl (tl (intro_events ++ repeat_events 1 sweep_events)))
                eq_refl).
  vm_compute in Hinv. discriminate.
Qed.

(** ** The program as a whole *)

(** X15: [main] never returns: whatever the EEPROM holds and whatever the
    input line does, it stays in the calibration sweep or in the polling
    loop, for every number of iterations granted. *)
Lemma main_never_returns (clk : cpu_clock) (fuel : nat) (w : world) :
  exists w', main clk fuel w = Running (0, w').
Proof.
  unfold main.
  destruct (fc_wants_sound (_delay_ms 100 (init w))) as [cal w1].
  destruct cal.
  - rewrite auto_sweep_mode_run. eexists. reflexivity.
  - rewrite while_forever.
    destruct (Nat.iter fuel (main_loop_body clk) _) as [so w2].
    eexists. reflexivity.
Qed.

(** * The rest of the program *)

(** ** More bit-level facts *)

Lemma testbit_u8 (x n : Z) :
  0 <= n -> Z.testbit (u8 x) n = (n <? 8) && Z.testbit x n.
Proof.
  intros Hn. rewrite u8_land, Z.land_spec. change 255 with (Z.ones 8).
  rewrite Z.testbit_ones_nonneg by lia. apply andb_comm.
Qed.

Lemma testbit_bit_set (x b n : Z) :
  0 <= b -> 0 <= n < 8 ->
  Z.testbit (bit_set x b) n = (b =? n) || Z.testbit x n.
Proof.
  intros Hb Hn. unfold bit_set. rewrite testbit_u8 by lia.
  rewrite Z.lor_spec, Z.shiftl_1_l, Z.pow2_bits_eqb by lia.
  destruct (Z.ltb_spec n 8); [| lia]. cbn [andb]. apply orb_comm.
Qed.

Lemma testbit_bit_clear (x b n : Z) :
  0 <= b -> 0 <= n < 8 ->
  Z.testbit (bit_clear x b) n = negb (b =? n) && Z.testbit x n.
Proof.
  intros Hb Hn. unfold bit_clear. rewrite testbit_u8 by lia.
  rewrite Z.land_spec, Z.lnot_spec, Z.shiftl_1_l, Z.pow2_bits_eqb by lia.
  destruct (Z.ltb_spec n 8); [| lia]. cbn [andb]. apply andb_comm.
Qed.

Lemma testbit_bit_toggle (x b n : Z) :
  0 <= b -> 0 <= n < 8 ->
  Z.testbit (bit_toggle x b) n = xorb (b =? n) (Z.testbit x n).
Proof.
  intros Hb Hn. unfold bit_toggle. rewrite testbit_u8 by lia.
  rewrite Z.lxor_spec, Z.shiftl_1_l, Z.pow2_bits_eqb by lia.
  destruct (Z.ltb_spec n 8); [| lia]. cbn [andb]. apply xorb_comm.
Qed.

Lemma bit_set_idem (x b : Z) : bit_set (bit_set x b) b = bit_set x b.
Proof.
  unfold bit_set. rewrite !u8_land.
  apply Z.bits_inj'. intros n _.
  repeat (rewrite Z.land_spec || rewrite Z.lor_spec).
  destruct (Z.testbit x n), (Z.testbit (Z.shiftl 1 b) n), (Z.testbit 255 n);
    reflexivity.
Qed.

Lemma bit_toggle_twice (x b : Z) :
  0 <= b -> 0 <= x < 256 -> bit_toggle (bit_toggle x b) b = x.
Proof.
  intros Hb Hx. unfold bit_toggle.
  rewrite <- (u8_small x Hx) at 2. rewrite !u8_land.
  apply Z.bits_inj'. intros n _.
  repeat (rewrite Z.land_spec || rewrite Z.lxor_spec).
  destruct (Z.testbit x n), (Z.testbit (Z.shiftl 1 b) n), (Z.testbit 255 n);
    reflexivity.
Qed.

(** ** The compare-match handler *)

(** X1: on an 8-bit PORTB the handler inverts bit PB3 and keeps the other
    seven bits and every other register; two matches in a row bring the
    machine back to where it was. *)
Theorem isr_toggles_output (m : mcu) (n : Z) :
  0 <= PORTB m < 256 -> 0 <= n < 8 ->
  Z.testbit (PORTB (TIM0_COMPA_vect m)) n
  = (if n =? BUZZER_PIN then negb (Z.testbit (PORTB m) n)
     else Z.testbit (PORTB m) n) /\
  set_PORTB (PORTB m) (TIM0_COMPA_vect m) = m /\
  TIM0_COMPA_vect (TIM0_COMPA_vect m) = m.
Proof.
  intros Hp Hn. destruct m as [ocr ddr port tca tcb timsk sreg ee cf].
  unfold TIM0_COMPA_vect, set_PORTB. cbn [PORTB OCR0A DDRB TCCR0A TCCR0B TIMSK0
                                          SREG eeprom current_freq] in *.
  split; [| split].
  - rewrite testbit_bit_toggle by (assumption || discriminate).
    rewrite (Z.eqb_sym n BUZZER_PIN).
    destruct (BUZZER_PIN =? n), (Z.testbit port n); reflexivity.
  - reflexivity.
  - rewrite bit_toggle_twice by (assumption || discriminate). reflexivity.
Qed.

Lemma isr_toggles_output_witness :
  0 <= PORTB mcu_reset < 256 /\ 0 <= 3 < 8 /\
  Z.testbit (PORTB (TIM0_COMPA_vect mcu_reset)) 3 = true /\
  TIM0_COMPA_vect (TIM0_COMPA_vect mcu_reset) = mcu_reset.
Proof.
  assert (Hp : 0 <= PORTB mcu_reset < 256) by (simpl; lia).
  assert (Hn : 0 <= 3 < 8) by lia.
  destruct (isr_toggles_output mcu_reset 3 Hp Hn) as (Hbit & _ & Htwice).
  split; [exact Hp |]. split; [exact Hn |].
  split; [rewrite Hbit; reflexivity | exact Htwice].
Defined.

(** ** More about the tone generator *)

Lemma current_freq_tone_start (clk : cpu_clock) (f : Z) (m : mcu) :
  current_freq (tone_start clk f m) = current_freq m.
Proof. unfold tone_start. now destruct (f =? 0). Qed.

Lemma eeprom_of_tone_start (clk : cpu_clock) (f : Z) (m : mcu) :
  eeprom (tone_start clk f m) = eeprom m.
Proof. unfold tone_start. now destruct (f =? 0). Qed.

(** The machine [tone_start] leaves, register by register. *)
Lemma tone_start_fields (clk : cpu_clock) (f : Z) (m : mcu) :
  f <> 0 ->
  tone_start clk f m
  = Mcu (u8 (ocr_val clk f)) (bit_set (DDRB m) BUZZER_PIN) (PORTB m) 2 2
        (bit_set (TIMSK0 m) OCIE0A) (bit_set (SREG m) SREG_I)
        (eeprom m) (current_freq m).
Proof.
  intros Hf. unfold tone_start.
  destruct (Z.eqb_spec f 0) as [-> | _]; [contradiction | reflexivity].
Qed.

(** X2: for a frequency other than 0, [tone_start] makes PB3 an output,
    puts Timer0 in CTC mode with prescaler 8, unmasks the compare-match
    interrupt and enables interrupts, so that the next compare match runs
    the handler; the level of the port, the other bits of TIMSK0 and DDRB,
    the EEPROM and [current_freq] are left alone. *)
Theorem tone_start_arms (clk : cpu_clock) (f : Z) (m : mcu) :
  f <> 0 ->
  let m' := tone_start clk f m in
  Z.testbit (DDRB m') BUZZER_PIN = true /\
  TCCR0A m' = 2 /\ TCCR0B m' = 2 /\
  Z.testbit (TIMSK0 m') OCIE0A = true /\
  Z.testbit (SREG m') SREG_I = true /\
  compare_match m' = TIM0_COMPA_vect m' /\
  PORTB m' = PORTB m /\ eeprom m' = eeprom m /\
  current_freq m' = current_freq m /\
  (forall n, 0 <= n < 8 -> n <> OCIE0A ->
     Z.testbit (TIMSK0 m') n = Z.testbit (TIMSK0 m) n) /\
  (forall n, 0 <= n < 8 -> n <> BUZZER_PIN ->
     Z.testbit (DDRB m') n = Z.testbit (DDRB m) n).
Proof.
  intros Hf m'. subst m'. rewrite (tone_start_fields clk f m Hf).
  unfold compare_match.
  cbn [OCR0A DDRB PORTB TCCR0A TCCR0B TIMSK0 SREG eeprom current_freq].
  assert (Ht : Z.testbit (bit_set (TIMSK0 m) OCIE0A) OCIE0A = true).
  { rewrite testbit_bit_set by (unfold OCIE0A; lia).
    now rewrite Z.eqb_refl. }
  assert (Hs : Z.testbit (bit_set (SREG m) SREG_I) SREG_I = true).
  { rewrite testbit_bit_set by (unfold SREG_I; lia).
    now rewrite Z.eqb_refl. }
  rewrite Ht, Hs. cbn [andb].
  split.
  { rewrite testbit_bit_set by (unfold BUZZER_PIN, PB3; lia).
    now rewrite Z.eqb_refl. }
  do 8 (split; [reflexivity |]).
  split.
  - intros n Hn Hne. rewrite testbit_bit_set by (unfold OCIE0A; lia).
    destruct (Z.eqb_spec OCIE0A n); [congruence | reflexivity].
  - intros n Hn Hne.
    rewrite testbit_bit_set by (unfold BUZZER_PIN, PB3; lia).
    destruct (Z.eqb_spec BUZZER_PIN n); [congruence | reflexivity].
Qed.

Lemma tone_start_arms_witness :
  2500 <> 0 /\
  compare_match (tone_start Clk_9M6 2500 mcu_reset)
  = TIM0_COMPA_vect (tone_start Clk_9M6 2500 mcu_reset) /\
  Z.testbit (PORTB (compare_match (tone_start Clk_9M6 2500 mcu_reset))) 3
  = true.
Proof.
  assert (Hf : 2500 <> 0) by discriminate.
  pose proof (tone_start_arms Clk_9M6 2500 mcu_reset Hf) as H.
  cbv zeta in H. destruct H as (_ & _ & _ & _ & _ & Hisr & _).
  split; [exact Hf |]. split; [exact Hisr |].
  rewrite Hisr. reflexivity.
Defined.

(** X3: a second [tone_start] retunes the generator: starting at [f] and
    then at [g <> 0] leaves the machine that starting at [g] alone leaves;
    in particular starting twice at the same frequency is starting once. *)
Theorem tone_start_retune (clk : cpu_clock) (f g : Z) (m : mcu) :
  g <> 0 ->
  tone_start clk g (tone_start clk f m) = tone_start clk g m.
Proof.
  intros Hg. rewrite (tone_start_fields clk g m Hg).
  destruct (Z.eq_dec f 0) as [-> | Hf].
  - change (tone_start clk 0 m) with m. apply (tone_start_fields clk g m Hg).
  - rewrite (tone_start_fields clk f m Hf), tone_start_fields by exact Hg.
    cbn [OCR0A DDRB PORTB TCCR0A TCCR0B TIMSK0 SREG eeprom current_freq].
    now rewrite !bit_set_idem.
Qed.

Lemma tone_start_retune_witness :
  3000 <> 0 /\
  tone_start Clk_1M2 3000 (tone_start Clk_1M2 2400 mcu_reset)
  = tone_start Clk_1M2 3000 mcu_reset.
Proof.
  assert (Hg : 3000 <> 0) by discriminate.
  split; [exact Hg |].
  exact (tone_start_retune Clk_1M2 2400 3000 mcu_reset Hg).
Defined.

(** *** Accuracy of the tones *)

Lemma forall_range_spec (n : nat) (lo : Z) (P : Z -> bool) :
  forall_range n lo P = true ->
  forall z, lo <= z < lo + Z.of_nat n -> P z = true.
Proof.
  revert lo. induction n as [| n IH]; intros lo Hall z Hz; [lia |].
  cbn [forall_range] in Hall. apply andb_prop in Hall as [Hlo Hrest].
  destruct (Z.eq_dec z lo) as [-> | Hne]; [exact Hlo |].
  apply (IH (lo + 1) Hrest). lia.
Qed.





Lemma fast_clock_step_checked (f : Z) :
  2400 <= f <= 2900 -> 600000 / (f + 100) < 600000 / f.
Proof.
  intros Hf.
  assert (Hall : forall_range 501 2400
                   (fun g => 600000 / (g + 100) <? 600000 / g) = true)
    by (vm_compute; reflexivity).
  pose proof (forall_range_spec _ _ _ Hall f ltac:(lia)) as H.
  now apply Z.ltb_lt in H.
Qed.

(** X5: at 9.6 MHz two frequencies of the sweep range that are at least
    [FREQ_STEP] apart load different divisors, so the seven candidates are
    seven different tones; at 1.2 MHz the candidates 2900 and 3000 load the
    same divisor and are the same tone. *)
Theorem sweep_resolution (m : mcu) (f1 f2 : Z) :
  2400 <= f1 -> f1 + FREQ_STEP <= f2 -> f2 <= 3000 ->
  OCR0A (tone_start Clk_9M6 f2 m) < OCR0A (tone_start Clk_9M6 f1 m) /\
  OCR0A (tone_start Clk_1M2 2900 m) = OCR0A (tone_start Clk_1M2 3000 m).
Proof.
  unfold FREQ_STEP. intros H1 H2 H3. split; [| reflexivity].
  rewrite !OCR0A_tone_start by lia.
  destruct (sweep_range_divisor Clk_9M6 f1 ltac:(lia)) as [-> _].
  destruct (sweep_range_divisor Clk_9M6 f2 ltac:(lia)) as [-> _].
  pose proof (fast_clock_step_checked f1 ltac:(lia)) as Hstep.
  assert (Hmono : timer_rate Clk_9M6 / f2 <= timer_rate Clk_9M6 / (f1 + 100)).
  { apply Z.div_le_compat_l; simpl; lia. }
  change (timer_rate Clk_9M6) with 600000 in *. lia.
Qed.

Lemma sweep_resolution_witness :
  2400 <= 2900 /\ 2900 + FREQ_STEP <= 3000 /\ 3000 <= 3000 /\
  OCR0A (tone_start Clk_9M6 3000 mcu_reset)
  < OCR0A (tone_start Clk_9M6 2900 mcu_reset).
Proof.
  assert (H1 : 2400 <= 2900) by lia.
  assert (H2 : 2900 + FREQ_STEP <= 3000) by (unfold FREQ_STEP; lia).
  assert (H3 : 3000 <= 3000) by lia.
  split; [exact H1 |]. split; [exact H2 |]. split; [exact H3 |].
  exact (proj1 (sweep_resolution mcu_reset 2900 3000 H1 H2 H3)).
Defined.

(** ** More about the persistent store *)

Lemma read_word_write_word (a f : Z) (e : eeprom_mem) :
  0 <= f < 65536 -> read_word (write_word a f e) a = f.
Proof.
  intros Hf. unfold read_word, write_word.
  rewrite !read_byte_cell_write, !Z.eqb_refl.
  destruct (Z.eqb_spec a (a + 1)) as [Habs | _]; [lia |].
  rewrite Z.shiftr_div_pow2 by lia.
  rewrite !u8_small by apply u8_range.
  unfold u8. change (2 ^ 8) with 256.
  assert (Hhi : (f / 256) mod 256 = f / 256).
  { apply Z.mod_small.
    split; [apply Z.div_pos; lia | apply Z.div_lt_upper_bound; lia]. }
  pose proof (Z.div_mod f 256 ltac:(lia)) as Hdm.
  rewrite Hhi. lia.
Qed.

Lemma marker_kept_by_write_word (f : Z) (e : eeprom_mem) :
  read_byte (write_word EEPROM_FREQ_ADDR f e) EEPROM_MAGIC_ADDR
  = read_byte e EEPROM_MAGIC_ADDR.
Proof. reflexivity. Qed.

(** X6: [save_freq_to_eeprom] stores any 16-bit value unchecked and the
    check is made on loading: after saving [f] the load gives [f] when [f]
    is in [2400, 4500] and 2500 otherwise, whatever was stored before. *)
Theorem save_unchecked_load_checked (f : Z) (w : world) :
  0 <= f < 65536 ->
  fst (load_freq_from_eeprom (save_freq_to_eeprom f w))
  = if (2400 <=? f) && (f <=? 4500) then f else 2500.
Proof.
  intros Hf. rewrite load_value, eeprom_after_save. unfold next_boot_freq.
  rewrite marker_after_save, Z.eqb_refl, word_roundtrip by assumption.
  reflexivity.
Qed.

Lemma save_unchecked_load_checked_witness :
  0 <= 5000 < 65536 /\
  fst (load_freq_from_eeprom (save_freq_to_eeprom 5000 world_reset)) = 2500.
Proof.
  assert (Hf : 0 <= 5000 < 65536) by lia.
  split; [exact Hf |].
  exact (save_unchecked_load_checked 5000 world_reset Hf).
Defined.

(** X7: a save cut short between its two writes.  With only the word
    written, storage that never held the marker still loads as 2500, while
    on storage that already holds the marker the new word is loaded (if it
    is in range) although its own marker write never happened. *)
Theorem save_interrupted (f : Z) (w : world) :
  0 <= f < 65536 ->
  fst (load_freq_from_eeprom (eeprom_write_word EEPROM_FREQ_ADDR f w))
  = if read_byte (eeprom (hw w)) EEPROM_MAGIC_ADDR =? EEPROM_MAGIC
    then (if (2400 <=? f) && (f <=? 4500) then f else 2500)
    else 2500.
Proof.
  intros Hf. rewrite load_value. unfold eeprom_write_word.
  cbn [hw emit on_hw eeprom set_eeprom]. unfold next_boot_freq.
  rewrite marker_kept_by_write_word, read_word_write_word by assumption.
  reflexivity.
Qed.

Lemma save_interrupted_witness :
  0 <= 2900 < 65536 /\
  fst (load_freq_from_eeprom
         (eeprom_write_word EEPROM_FREQ_ADDR 2900 world_reset)) = 2500 /\
  fst (load_freq_from_eeprom
         (eeprom_write_word EEPROM_FREQ_ADDR 2900 world_calibrated_2700))
  = 2900.
Proof.
  assert (Hf : 0 <= 2900 < 65536) by lia.
  split; [exact Hf |]. split.
  - exact (save_interrupted 2900 world_reset Hf).
  - exact (save_interrupted 2900 world_calibrated_2700 Hf).
Defined.

(** ** More about the waits *)

Lemma tone_starts_app (a b : list event) :
  (tone_starts (a ++ b) = tone_starts a + tone_starts b)%nat.
Proof.
  induction a as [| ev a IH]; [reflexivity |].
  destruct ev; cbn [tone_starts app]; rewrite ?IH; reflexivity.
Qed.

Lemma tone_stops_app (a b : list event) :
  (tone_stops (a ++ b) = tone_stops a + tone_stops b)%nat.
Proof.
  induction a as [| ev a IH]; [reflexivity |].
  destruct ev; cbn [tone_stops app]; rewrite ?IH; reflexivity.
Qed.

Lemma eeprom_writes_app (a b : list event) :
  (eeprom_writes (a ++ b) = eeprom_writes a + eeprom_writes b)%nat.
Proof.
  induction a as [| ev a IH]; [reflexivity |].
  destruct ev; cbn [eeprom_writes app]; rewrite ?IH; reflexivity.
Qed.

Lemma blocks_are_quiet (n : nat) :
  tone_starts (blocks n) = O /\ tone_stops (blocks n) = O /\
  eeprom_writes (blocks n) = O.
Proof. induction n as [| n IH]; [repeat split | exact IH]. Qed.

Lemma tone_idle_after_stop (m : mcu) : tone_idle (tone_stop m).
Proof.
  unfold tone_idle, tone_stop, set_PORTB, set_TCCR0A, set_TCCR0B, set_TIMSK0.
  cbn [TIMSK0 TCCR0A TCCR0B PORTB].
  repeat split; apply bit_clear_testbit; discriminate.
Qed.

Lemma tone_stop_when_idle (m : mcu) :
  regs_8bit m -> tone_idle m -> tone_stop m = m.
Proof.
  intros [Ht Hp] (Hmask & Ha & Hb & Hout).
  destruct m as [ocr ddr port tca tcb timsk sreg ee cf].
  cbn [TIMSK0 TCCR0A TCCR0B PORTB] in *.
  unfold tone_stop, set_TIMSK0, set_TCCR0A, set_TCCR0B, set_PORTB.
  cbn [OCR0A DDRB PORTB TCCR0A TCCR0B TIMSK0 SREG eeprom current_freq].
  rewrite (bit_clear_noop timsk OCIE0A) by (assumption || discriminate).
  rewrite (bit_clear_noop port BUZZER_PIN) by (assumption || discriminate).
  now subst.
Qed.

(** X8: [pause] touches nothing but the log, whatever the duration: the
    hardware, the EEPROM in it and the input line are as before, and what it
    logs holds no tone call and no EEPROM write. *)
Theorem pause_only_waits (d : Z) (w : world) :
  hw (pause d w) = hw w /\
  line (pause d w) = line w /\ reads (pause d w) = reads w /\
  tone_starts (since w (pause d w)) = O /\
  tone_stops (since w (pause d w)) = O /\
  eeprom_writes (since w (pause d w)) = O.
Proof.
  destruct (pause_blocks d w) as (n & -> & _). rewrite since_run.
  destruct (blocks_are_quiet n) as (Hs & Hp & He).
  repeat split; assumption.
Qed.

(** X9: whatever the frequency and the duration, [beep] makes one call of
    [tone_start] and one of [tone_stop] and leaves the tone generator idle,
    with the EEPROM, [current_freq] and the input line untouched.  With
    frequency 0 the hardware ends as [tone_stop] alone leaves it, and on an
    idle machine exactly as it was: a silent pause. *)
Theorem beep_ends_idle (clk : cpu_clock) (f d : Z) (w : world) :
  tone_idle (hw (beep clk f d w)) /\
  eeprom (hw (beep clk f d w)) = eeprom (hw w) /\
  current_freq (hw (beep clk f d w)) = current_freq (hw w) /\
  line (beep clk f d w) = line w /\ reads (beep clk f d w) = reads w /\
  tone_starts (since w (beep clk f d w)) = 1%nat /\
  tone_stops (since w (beep clk f d w)) = 1%nat /\
  eeprom_writes (since w (beep clk f d w)) = O /\
  hw (beep clk 0 d w) = tone_stop (hw w) /\
  (regs_8bit (hw w) -> tone_idle (hw w) -> hw (beep clk 0 d w) = hw w).
Proof.
  destruct (beep_blocks clk f d w) as (n & -> & _).
  destruct (beep_blocks clk 0 d w) as (n0 & -> & _).
  rewrite since_run, !hw_run.
  destruct (blocks_are_quiet n) as (Hs & Hp & He).
  split; [apply tone_idle_after_stop |].
  split.
  { unfold tone_stop. cbn [eeprom set_PORTB set_TCCR0A set_TCCR0B set_TIMSK0].
    apply eeprom_of_tone_start. }
  split.
  { unfold tone_stop.
    cbn [current_freq set_PORTB set_TCCR0A set_TCCR0B set_TIMSK0].
    apply current_freq_tone_start. }
  split; [reflexivity |]. split; [reflexivity |].
  cbn [tone_starts tone_stops eeprom_writes].
  rewrite tone_starts_app, tone_stops_app, eeprom_writes_app, Hs, Hp, He.
  split; [reflexivity |]. split; [reflexivity |]. split; [reflexivity |].
  split; [reflexivity |].
  intros H8 Hidle. now apply tone_stop_when_idle.
Qed.

Lemma beep_ends_idle_witness :
  regs_8bit (hw world_reset) /\ tone_idle (hw world_reset) /\
  hw (beep Clk_1M2 0 400 world_reset) = hw world_reset.
Proof.
  assert (H8 : regs_8bit (hw world_reset)) by (unfold regs_8bit; simpl; lia).
  assert (Hidle : tone_idle (hw world_reset)) by (repeat split).
  split; [exact H8 |]. split; [exact Hidle |].
  destruct (beep_ends_idle Clk_1M2 0 400 world_reset)
    as (_ & _ & _ & _ & _ & _ & _ & _ & _ & Hsilent).
  exact (Hsilent H8 Hidle).
Defined.

(** ** Initialisation *)

Lemma load_run (w : world) :
  load_freq_from_eeprom w
  = (next_boot_freq (eeprom (hw w)),
     run (fun m => m) (load_events (eeprom (hw w))) w).
Proof.
  unfold load_freq_from_eeprom, next_boot_freq, load_events, eeprom_read_byte,
    eeprom_read_word.
  destruct (read_byte (eeprom (hw w)) EEPROM_MAGIC_ADDR =? EEPROM_MAGIC).
  - cbn [negb]. rewrite !emit_run, run_run. cbn [hw run eeprom app].
    destruct (Z.ltb_spec (read_word (eeprom (hw w)) EEPROM_FREQ_ADDR) 2400),
      (Z.ltb_spec 4500 (read_word (eeprom (hw w)) EEPROM_FREQ_ADDR)),
      (Z.leb_spec 2400 (read_word (eeprom (hw w)) EEPROM_FREQ_ADDR)),
      (Z.leb_spec (read_word (eeprom (hw w)) EEPROM_FREQ_ADDR) 4500);
      cbn [orb andb]; try reflexivity; lia.
  - cbn [negb]. now rewrite emit_run.
Qed.

Lemma init_run (w : world) :
  init w = run init_hw (load_events (eeprom (hw w)) ++ [EvWdtEnable]) w.
Proof.
  unfold init. rewrite !on_hw_run, !run_run, load_run.
  unfold wdt_enable. rewrite emit_run, on_hw_run, !run_run.
  reflexivity.
Qed.

(** X10: after [init] the buzzer pin PB3 is an output driven low, the
    signal pin PB1 is an input with its pull-up on, and [current_freq] is
    the validated frequency of the EEPROM, hence always in [2400, 4500];
    the EEPROM and the timer registers are not written, the input line is
    not sampled, and the watchdog is enabled last, after the EEPROM has
    been read. *)
Theorem init_establishes (w : world) :
  let m := hw w in
  let m' := hw (init w) in
  Z.testbit (DDRB m') BUZZER_PIN = true /\
  Z.testbit (PORTB m') BUZZER_PIN = false /\
  Z.testbit (DDRB m') SIGNAL_PIN = false /\
  Z.testbit (PORTB m') SIGNAL_PIN = true /\
  current_freq m' = next_boot_freq (eeprom m) /\
  2400 <= current_freq m' <= 4500 /\
  eeprom m' = eeprom m /\
  (OCR0A m', TCCR0A m', TCCR0B m', TIMSK0 m', SREG m')
  = (OCR0A m, TCCR0A m, TCCR0B m, TIMSK0 m, SREG m) /\
  since w (init w) = load_events (eeprom m) ++ [EvWdtEnable] /\
  reads (init w) = reads w.
Proof.
  intros m m'. subst m m'. rewrite init_run, since_run, hw_run.
  unfold init_hw, init_pins, set_current_freq, set_DDRB, set_PORTB.
  cbn [OCR0A DDRB PORTB TCCR0A TCCR0B TIMSK0 SREG eeprom current_freq].
  pose proof (next_boot_freq_range (eeprom (hw w))) as Hrange.
  repeat split; try (apply Hrange);
    repeat first
      [ rewrite testbit_bit_set by (cbv; intuition discriminate)
      | rewrite testbit_bit_clear by (cbv; intuition discriminate) ];
    reflexivity.
Qed.

(** ** The polling loop over any number of passes *)

Section Polling.

Variable clk : cpu_clock.

Lemma tone_armed_after_start (m : mcu) :
  0 < current_freq m < 65536 ->
  tone_armed clk (tone_start clk (current_freq m) m).
Proof.
  intros Hf. unfold tone_armed.
  rewrite current_freq_tone_start, OCR0A_tone_start by assumption.
  rewrite tone_start_fields by lia.
  cbn [OCR0A DDRB PORTB TCCR0A TCCR0B TIMSK0 SREG eeprom current_freq].
  repeat split;
    rewrite testbit_bit_set by (cbv; intuition discriminate); reflexivity.
Qed.

(** One pass keeps hardware and [sound_on] in step. *)
Lemma main_loop_body_consistent (so : bool) (w : world) :
  0 < current_freq (hw w) < 65536 ->
  relay_consistent clk (so, w) ->
  relay_consistent clk (main_loop_body clk (so, w)) /\
  current_freq (hw (snd (main_loop_body clk (so, w)))) = current_freq (hw w).
Proof.
  intros Hf Hc. rewrite main_loop_body_spec. unfold relay_consistent in *.
  cbn [fst snd] in *.
  destruct (line_asserted w), so; rewrite hw_run; cbn [hw polled].
  - split; [exact Hc | reflexivity].
  - split; [now apply tone_armed_after_start |].
    apply current_freq_tone_start.
  - split; [apply tone_idle_after_stop | reflexivity].
  - split; [exact Hc | reflexivity].
Qed.

(** What [n] passes log and what they leave alone. *)
Lemma polls_log (n : nat) (so : bool) (w : world) :
  let st' := Nat.iter n (main_loop_body clk) (so, w) in
  exists evs,
    trace (snd st') = trace w ++ evs /\
    (tone_starts evs + bool_count so
     = tone_stops evs + bool_count (fst st'))%nat /\
    eeprom_writes evs = O /\
    elapsed_us evs = 100 * Z.of_nat n /\
    reads (snd st') = (reads w + n)%nat /\
    line (snd st') = line w /\
    eeprom (hw (snd st')) = eeprom (hw w) /\
    current_freq (hw (snd st')) = current_freq (hw w).
Proof.
  induction n as [| n IH].
  - exists []. cbn [Nat.iter nat_rect fst snd]. rewrite app_nil_r, Nat.add_0_r.
    repeat split.
  - cbv zeta in IH |- *.
    change (Nat.iter (S n) (main_loop_body clk) (so, w))
      with (main_loop_body clk (Nat.iter n (main_loop_body clk) (so, w))).
    destruct (Nat.iter n (main_loop_body clk) (so, w)) as [so_n w_n].
    cbn [fst snd] in IH.
    destruct IH as (evs & Htr & Hbal & Hwr & Hus & Hrd & Hln & Hee & Hcf).
    rewrite main_loop_body_spec. cbn [fst snd].
    destruct (line_asserted w_n), so_n;
      (eexists; split;
       [ cbn [trace run polled]; rewrite Htr, <- app_assoc; reflexivity |]);
      rewrite tone_starts_app, tone_stops_app, eeprom_writes_app,
        elapsed_us_app, Hwr, Hus, hw_run;
      cbn [tone_starts tone_stops eeprom_writes elapsed_us bool_count
           reads line hw run polled] in *;
      rewrite ?eeprom_of_tone_start, ?current_freq_tone_start;
      repeat split; try assumption; try lia.
Qed.

Lemma line_asserted_iter (n : nat) (so : bool) (w : world) :
  line_asserted (snd (Nat.iter n (main_loop_body clk) (so, w)))
  = negb (Z.testbit (line w (reads w + n)%nat) SIGNAL_PIN).
Proof.
  destruct (polls_log n so w) as (_ & _ & _ & _ & _ & Hrd & Hln & _).
  cbv zeta in Hrd, Hln. unfold line_asserted. now rewrite Hrd, Hln.
Qed.

(** X11: the relay follows the input line.  Started with the hardware in
    step with [sound_on] and a non-zero 16-bit [current_freq], after every
    pass of the polling loop [sound_on] is the request sampled in that pass
    (pin low), the tone generator is armed for [current_freq] exactly when
    [sound_on] is set and idle otherwise, and [current_freq] is as it
    was. *)
Theorem relay_follows_line (n : nat) (so : bool) (w : world) :
  0 < current_freq (hw w) < 65536 ->
  relay_consistent clk (so, w) ->
  let st' := Nat.iter (S n) (main_loop_body clk) (so, w) in
  fst st' = negb (Z.testbit (line w (reads w + n)%nat) SIGNAL_PIN) /\
  relay_consistent clk st' /\
  current_freq (hw (snd st')) = current_freq (hw w).
Proof.
  intros Hf Hc.
  assert (Hinv : forall k,
             relay_consistent clk (Nat.iter k (main_loop_body clk) (so, w)) /\
             current_freq (hw (snd (Nat.iter k (main_loop_body clk) (so, w))))
             = current_freq (hw w)).
  { induction k as [| k [IHc IHf]]; [split; [exact Hc | reflexivity] |].
    change (Nat.iter (S k) (main_loop_body clk) (so, w))
      with (main_loop_body clk (Nat.iter k (main_loop_body clk) (so, w))).
    destruct (Nat.iter k (main_loop_body clk) (so, w)) as [so_k w_k].
    cbn [snd] in IHf.
    destruct (main_loop_body_consistent so_k w_k) as [Hc' Hf'];
      [rewrite IHf; exact Hf | exact IHc |].
    split; [exact Hc' | now rewrite Hf']. }
  intros st'. subst st'. destruct (Hinv (S n)) as [HcS HfS].
  split; [| split; assumption].
  change (Nat.iter (S n) (main_loop_body clk) (so, w))
    with (main_loop_body clk (Nat.iter n (main_loop_body clk) (so, w))).
  pose proof (line_asserted_iter n so w) as Hla.
  destruct (Nat.iter n (main_loop_body clk) (so, w)) as [so_n w_n].
  rewrite main_loop_body_spec. exact Hla.
Qed.

(** X12: over any number of passes from SILENT the calls balance: the
    passes log as many [tone_stop] calls as [tone_start] calls, plus one
    start when the relay ends SOUNDING; they never write the EEPROM, they
    sample the line once per pass and spend 100 microseconds of delay per
    pass. *)
Theorem polling_calls_balance (n : nat) (w : world) :
  let st' := Nat.iter n (main_loop_body clk) (false, w) in
  tone_starts (since w (snd st'))
  = (tone_stops (since w (snd st')) + bool_count (fst st'))%nat /\
  eeprom_writes (since w (snd st')) = O /\
  eeprom (hw (snd st')) = eeprom (hw w) /\
  reads (snd st') = (reads w + n)%nat /\
  elapsed_us (since w (snd st')) = 100 * Z.of_nat n.
Proof.
  destruct (polls_log n false w)
    as (evs & Htr & Hbal & Hwr & Hus & Hrd & _ & Hee & _).
  cbv zeta in *. rewrite (since_app _ _ evs Htr).
  cbn [bool_count] in Hbal. rewrite Nat.add_0_r in Hbal.
  repeat split; assumption.
Qed.

End Polling.

Lemma relay_follows_line_witness :
  0 < current_freq (hw world_low_high_low) < 65536 /\
  relay_consistent Clk_9M6 (false, world_low_high_low) /\
  fst (Nat.iter 3 (main_loop_body Clk_9M6) (false, world_low_high_low))
  = true /\
  tone_armed Clk_9M6
    (hw (snd (Nat.iter 3 (main_loop_body Clk_9M6)
                (false, world_low_high_low)))).
Proof.
  assert (Hf : 0 < current_freq (hw world_low_high_low) < 65536)
    by (simpl; unfold DEFAULT_FREQ; lia).
  assert (Hc : relay_consistent Clk_9M6 (false, world_low_high_low))
    by (repeat split).
  pose proof (relay_follows_line Clk_9M6 2 false world_low_high_low Hf Hc)
    as H.
  cbv zeta in H. destruct H as (Hso & Hcons & _).
  split; [exact Hf |]. split; [exact Hc |].
  split; [exact Hso |].
  unfold relay_consistent in Hcons. rewrite Hso in Hcons. exact Hcons.
Defined.

(** ** Boot *)

Section Boot.

Variable clk : cpu_clock.

(** [main] up to the boot-time sample of the line. *)
Lemma boot_run (w : world) :
  fc_wants_sound (_delay_ms 100 (init w))
  = (line_asserted w,
     run init_hw (boot_events (eeprom (hw w))) (polled w)).
Proof.
  rewrite init_run. unfold _delay_ms. rewrite emit_run, run_run.
  rewrite fc_wants_sound_spec. unfold boot_events.
  rewrite <- app_assoc. reflexivity.
Qed.

Lemma elapsed_us_repeat (n : nat) (evs : list event) :
  elapsed_us (repeat_events n evs) = Z.of_nat n * elapsed_us evs.
Proof.
  induction n as [| n IH]; [reflexivity |].
  cbn [repeat_events]. rewrite elapsed_us_app, IH. lia.
Qed.

Lemma eeprom_init_hw (m : mcu) : eeprom (init_hw m) = eeprom m.
Proof. reflexivity. Qed.

Lemma current_freq_tone_stop (m : mcu) :
  current_freq (tone_stop m) = current_freq m.
Proof. reflexivity. Qed.

Lemma current_freq_step_hw (f : Z) (m : mcu) :
  current_freq (step_hw clk f m) = f.
Proof.
  unfold step_hw. rewrite current_freq_tone_stop, current_freq_tone_start.
  reflexivity.
Qed.

Lemma sweep_hw_ends (m : mcu) :
  current_freq (sweep_hw clk m) = FREQ_MAX /\
  next_boot_freq (eeprom (sweep_hw clk m)) = FREQ_MAX /\
  tone_idle (sweep_hw clk m).
Proof.
  unfold sweep_hw, candidates. cbn [fold_left].
  match goal with
  | |- context [step_hw clk 3000 ?x] => generalize x; intros m6
  end.
  split; [| split].
  - apply current_freq_step_hw.
  - rewrite eeprom_step_hw. change FREQ_MAX with 3000.
    apply next_boot_after_save. lia.
  - unfold step_hw. apply tone_idle_after_stop.
Qed.

(** X13: booted with the input pin low, [main] goes into calibration and
    stays there: after the boot log come the two confirmation beeps and
    then sweep after sweep; the chime of a normal start is never played and
    the input line is never sampled again. *)
Theorem boot_low_calibrates (fuel : nat) (w : world) :
  pin_low (line w (reads w)) ->
  exists w',
    main clk fuel w = Running (0, w') /\
    since w w'
    = boot_events (eeprom (hw w)) ++ intro_events
      ++ repeat_events fuel sweep_events /\
    reads w' = S (reads w) /\
    hw w' = Nat.iter fuel (sweep_hw clk) (intro_hw clk (init_hw (hw w))).
Proof.
  intros Hlow. unfold main. rewrite boot_run.
  rewrite (line_asserted_low w Hlow), auto_sweep_mode_run, run_run.
  eexists. split; [reflexivity |].
  split; [now apply since_app |]. split; reflexivity.
Qed.

(** X16: once a sweep has been completed, every later return to the top of
    the calibration loop finds [current_freq] and the persisted frequency
    both at [FREQ_MAX] and the tone generator idle; the confirmation beeps
    take 1.6 s of delay and every pass of the loop 15 s (seven candidates
    of 1.5 s tone and 0.5 s pause, and 1 s at the end). *)
Theorem sweep_pass_ends_at_max (n : nat) (w : world) :
  exists w',
    auto_sweep_mode clk (S n) w = Running w' /\
    current_freq (hw w') = FREQ_MAX /\
    next_boot_freq (eeprom (hw w')) = FREQ_MAX /\
    tone_idle (hw w') /\
    reads w' = reads w /\
    elapsed_us (since w w') = 1600000 + 15000000 * Z.of_nat (S n).
Proof.
  eexists. split; [apply auto_sweep_mode_run |].
  rewrite since_run, hw_run.
  change (Nat.iter (S n) (sweep_hw clk) (intro_hw clk (hw w)))
    with (sweep_hw clk (Nat.iter n (sweep_hw clk) (intro_hw clk (hw w)))).
  destruct (sweep_hw_ends (Nat.iter n (sweep_hw clk) (intro_hw clk (hw w))))
    as (Hcf & Hnb & Hidle).
  split; [exact Hcf |]. split; [exact Hnb |]. split; [exact Hidle |].
  split; [reflexivity |].
  rewrite elapsed_us_app, elapsed_us_repeat.
  change (elapsed_us intro_events) with 1600000.
  replace (elapsed_us sweep_events) with 15000000 by (vm_compute; reflexivity).
  lia.
Qed.

(** The hardware after the chime of a normal start. *)
Lemma chime_run (w : world) :
  let f := current_freq (hw w) in
  let w1 := beep clk f BEEP_SHORT_MS w in
  let w2 := pause PAUSE_SHORT_MS w1 in
  let w3 := beep clk (current_freq (hw w2)) BEEP_SHORT_MS w2 in
  exists H,
    pause 200 w3 = run H (chime_events f) w /\
    (forall m, eeprom (H m) = eeprom m /\
               current_freq (H m) = current_freq m /\
               tone_idle (H m)).
Proof.
  intros f w1 w2 w3.
  assert (Hf2 : current_freq (hw w2) = f).
  { subst w2 w1.
    rewrite pause_run, beep_run, !hw_run
      by (unfold PAUSE_SHORT_MS, BEEP_SHORT_MS; lia).
    unfold tone_stop.
    cbn [current_freq set_PORTB set_TCCR0A set_TCCR0B set_TIMSK0].
    apply current_freq_tone_start. }
  subst w3. rewrite Hf2. subst w2 w1.
  rewrite !pause_run, !beep_run, !run_run
    by (unfold PAUSE_SHORT_MS, BEEP_SHORT_MS; lia).
  eexists. split.
  - unfold chime_events. rewrite <- ?app_assoc. reflexivity.
  - intros m. cbv beta. split; [| split].
    + unfold tone_stop.
      cbn [eeprom set_PORTB set_TCCR0A set_TCCR0B set_TIMSK0].
      rewrite eeprom_of_tone_start.
      cbn [eeprom set_PORTB set_TCCR0A set_TCCR0B set_TIMSK0].
      apply eeprom_of_tone_start.
    + unfold tone_stop.
      cbn [current_freq set_PORTB set_TCCR0A set_TCCR0B set_TIMSK0].
      rewrite current_freq_tone_start.
      cbn [current_freq set_PORTB set_TCCR0A set_TCCR0B set_TIMSK0].
      apply current_freq_tone_start.
    + apply tone_idle_after_stop.
Qed.

Lemma chime_is_quiet (f : Z) :
  eeprom_writes (chime_events f) = O /\
  tone_starts (chime_events f) = 2%nat /\
  elapsed_us (chime_events f) = 500000.
Proof. repeat split. Qed.

Lemma boot_is_read_only (e : eeprom_mem) : eeprom_writes (boot_events e) = O.
Proof. unfold boot_events, load_events. now destruct (_ =? _). Qed.

(** X14: booted with the input pin high, [main] plays the chime, two
    100 ms beeps 100 ms apart and a 200 ms pause, at the frequency the
    EEPROM validates to, and then polls one sample per pass; in the whole
    run the EEPROM is read at boot and never written, and [current_freq]
    stays the loaded frequency. *)
Theorem boot_high_relays (fuel : nat) (w : world) :
  pin_high (line w (reads w)) ->
  let f := next_boot_freq (eeprom (hw w)) in
  exists w' polls,
    main clk fuel w = Running (0, w') /\
    since w w' = boot_events (eeprom (hw w)) ++ chime_events f ++ polls /\
    eeprom_writes (since w w') = O /\
    eeprom (hw w') = eeprom (hw w) /\
    current_freq (hw w') = f /\
    reads w' = (S (reads w) + fuel)%nat.
Proof.
  intros Hhigh f. unfold main. rewrite boot_run.
  rewrite (line_asserted_high w Hhigh).
  set (wb := run init_hw (boot_events (eeprom (hw w))) (polled w)).
  assert (Hfb : current_freq (hw wb) = f) by reflexivity.
  destruct (chime_run wb) as (H & Hchime & Hframe).
  cbv zeta in Hchime. rewrite Hfb in Hchime.
  cbv zeta. cbv iota. rewrite Hfb, Hchime, while_forever.
  destruct (polls_log clk fuel false (run H (chime_events f) wb))
    as (polls & Htr & _ & Hwr & _ & Hrd & _ & Hee & Hcf).
  cbv zeta in Htr, Hrd, Hee, Hcf.
  destruct (Nat.iter fuel (main_loop_body clk)
              (false, run H (chime_events f) wb)) as [so w'].
  cbn [snd] in Htr, Hrd, Hee, Hcf.
  destruct (Hframe (hw wb)) as (HeeH & HcfH & _).
  assert (Hlog : trace w'
                 = trace w ++ boot_events (eeprom (hw w))
                   ++ chime_events f ++ polls).
  { rewrite Htr. subst wb. cbn [trace run polled].
    now rewrite <- !app_assoc. }
  exists w', polls. split; [reflexivity |].
  rewrite (since_app _ _ _ Hlog).
  split; [reflexivity |]. split.
  - rewrite !eeprom_writes_app, boot_is_read_only, Hwr.
    now destruct (chime_is_quiet f) as (-> & _).
  - split; [| split].
    + rewrite Hee, hw_run, HeeH. reflexivity.
    + rewrite Hcf, hw_run, HcfH. exact Hfb.
    + rewrite Hrd. reflexivity.
Qed.

End Boot.

Lemma boot_low_calibrates_witness :
  pin_low (line world_calibrated_2700 (reads world_calibrated_2700)) /\
  exists w',
    main Clk_1M2 1 world_calibrated_2700 = Running (0, w') /\
    reads w' = 1%nat /\
    played (since world_calibrated_2700 w')
    = [2500; 2500; 2400; 2500; 2600; 2700; 2800; 2900; 3000].
Proof.
  assert (Hlow : pin_low (line world_calibrated_2700
                            (reads world_calibrated_2700))) by reflexivity.
  split; [exact Hlow |].
  destruct (boot_low_calibrates Clk_1M2 1 world_calibrated_2700 Hlow)
    as (w' & Hmain & Hlog & Hrd & _).
  exists w'. split; [exact Hmain |]. split; [exact Hrd |].
  rewrite Hlog. reflexivity.
Defined.

Lemma boot_high_relays_witness :
  pin_high (line world_high_low_high (reads world_high_low_high)) /\
  exists w',
    main Clk_1M2 3 world_high_low_high = Running (0, w') /\
    current_freq (hw w') = 2500 /\
    reads w' = 4%nat.
Proof.
  assert (Hhigh : pin_high (line world_high_low_high
                              (reads world_high_low_high))) by reflexivity.
  split; [exact Hhigh |].
  pose proof (boot_high_relays Clk_1M2 3 world_high_low_high Hhigh) as H.
  cbv zeta in H.
  destruct H as (w' & polls & Hmain & _ & _ & _ & Hcf & Hrd).
  exists w'. split; [exact Hmain |]. split; [exact Hcf | exact Hrd].
Defined.
